(** * FMEA for financial transactions: graph construction, risk scoring, report

    A shallow embedding of [graph_construction.py], [fmea_implementation.py]
    and [summary_report.py].  The Python functions send Cypher queries to a
    Neo4j store; here the store is an explicit value ([Graph]) and every query
    is a function over it, clause by clause.

    Conventions of the embedding:
    - a node is identified by its position in the node store (the engine's
      internal node identity); [Transaction_ID] is an ordinary string property
      and is compared only where the queries compare it;
    - [Transaction_Amount] is an IEEE binary64 number, as pandas reads it and
      as Neo4j stores it, so [<], [+], [*] and [abs] on amounts are the
      floating-point operations;
    - the [timestamp] property is an ISO-8601 string of fixed width with second
      precision; its lexicographic order is the chronological order, and
      [datetime(...)] resolves it to an instant.  The model keeps the instant,
      in whole seconds;
    - integer properties (severity, occurrence, detection, RPN, time_diff) are
      Cypher integers, modelled in [Z];
    - the columns that no query reads (Gender, Age, State, ...) are left out. *)

From Stdlib Require Import ZArith QArith List String Bool Lia.
From Stdlib Require Import Permutation Sorted DecimalString DecimalNat.
From Stdlib Require Import Floats Uint63.
Import ListNotations.

Set Warnings "-inexact-float".

Local Open Scope Z_scope.

(** ** The property graph *)

Record Transaction := mkTransaction {
  Transaction_ID : string;
  Transaction_Type : string;
  Transaction_Amount : float;
  timestamp : Z;
  severity : option Z;
  occurrence : option Z;
  detection : option Z;
  RPN : option Z;
  failure_mode : option string
}.

Inductive RelType := NEXT | SIMILAR.

Definition RelType_eqb (x y : RelType) : bool :=
  match x, y with
  | NEXT, NEXT => true
  | SIMILAR, SIMILAR => true
  | _, _ => false
  end.

(** A relationship joins two node positions; [time_diff] is the only
    relationship property the queries set (on [NEXT] only). *)
Record Relationship := mkRel {
  rel_start : nat;
  rel_type : RelType;
  rel_end : nat;
  time_diff : option Z
}.

Record Graph := mkGraph {
  nodes : list Transaction;
  relationships : list Relationship
}.

Definition empty_graph : Graph := mkGraph [] [].

(** Outcome of a Python call: a value, or a raised exception. *)
Inductive result (A : Type) :=
| Ok (a : A)
| Raise (exn : string).
Arguments Ok {A} a.
Arguments Raise {A} exn.

(** ** [graph_construction.py] *)

(** One line of the CSV file, after pandas has parsed it: the columns the
    pipeline keeps, with date and time already resolved to an instant. *)
Record CsvRow := mkCsvRow {
  csv_Transaction_Type : string;
  csv_Transaction_Amount : float;
  csv_instant : Z
}.

(** A row of the cleaned data frame. *)
Record Row := mkRow {
  row_Transaction_ID : string;
  row_Transaction_Type : string;
  row_Transaction_Amount : float;
  row_timestamp : Z
}.

(** [df.index.astype(str)]: the decimal writing of the row index. *)
Definition index_str (i : nat) : string :=
  NilEmpty.string_of_uint (Nat.to_uint i).

Definition clean_row (ir : nat * CsvRow) : Row :=
  let (i, r) := ir in
  mkRow (index_str i) (csv_Transaction_Type r) (csv_Transaction_Amount r)
        (csv_instant r).

(** The whole frame with its [Transaction_ID] column, before the slice. *)
Definition cleaned_frame (csv : list CsvRow) : list Row :=
  map clean_row (combine (seq 0 (List.length csv)) csv).

(** [load_data]: [return df[:1000]]. *)
Definition load_data (csv : list CsvRow) : list Row :=
  firstn 1000 (cleaned_frame csv).

Definition node_of_row (r : Row) : Transaction :=
  mkTransaction (row_Transaction_ID r) (row_Transaction_Type r)
                (row_Transaction_Amount r) (row_timestamp r)
                None None None None None.

(** [create_transaction_nodes]: [UNWIND $data AS row CREATE (t:Transaction ...)]
    appends one node per row, in row order. *)
Definition create_transaction_nodes (g : Graph) (df : list Row) : Graph :=
  mkGraph (nodes g ++ map node_of_row df) (relationships g).

(** [MATCH (t:Transaction)]: every node, with its identity. *)
Definition match_transactions (g : Graph) : list (nat * Transaction) :=
  combine (seq 0 (List.length (nodes g))) (nodes g).

(** [ORDER BY t.timestamp]: ascending on the timestamp alone.  Cypher leaves
    the relative order of rows with equal keys to the engine; the model keeps
    them in scan order (a stable insertion sort). *)
Fixpoint insert_by_timestamp (x : nat * Transaction)
         (l : list (nat * Transaction)) : list (nat * Transaction) :=
  match l with
  | [] => [x]
  | y :: l' =>
      if timestamp (snd y) <=? timestamp (snd x)
      then y :: insert_by_timestamp x l'
      else x :: l
  end.

Definition order_by_timestamp (l : list (nat * Transaction))
  : list (nat * Transaction) :=
  fold_left (fun acc x => insert_by_timestamp x acc) l [].

(** [range(a, b)]: the integers from [a] to [b], both included. *)
Definition cypher_range (a b : Z) : list Z :=
  map (fun k => a + Z.of_nat k) (seq 0 (Z.to_nat (b - a + 1))).

(** [l[i]]: list subscript; a negative subscript counts from the end and a
    subscript out of range gives null. *)
Definition cypher_index {A : Type} (l : list A) (i : Z) : option A :=
  if 0 <=? i then nth_error l (Z.to_nat i)
  else nth_error (rev l) (Z.to_nat (- i - 1)).

(** [duration.inSeconds(datetime(t1.timestamp), datetime(t2.timestamp)).seconds] *)
Definition inSeconds (t1 t2 : Transaction) : Z :=
  timestamp t2 - timestamp t1.

(** The relationships the [NEXT] query creates: one per [idx] of the range,
    from [txs[idx]] to [txs[idx+1]]. *)
Definition next_created (g : Graph) : list Relationship :=
  let txs := order_by_timestamp (match_transactions g) in
  flat_map
    (fun idx =>
       match cypher_index txs idx, cypher_index txs (idx + 1) with
       | Some t1, Some t2 =>
           [mkRel (fst t1) NEXT (fst t2) (Some (inSeconds (snd t1) (snd t2)))]
       | _, _ => []
       end)
    (cypher_range 0 (Z.of_nat (List.length txs) - 2)).

Definition create_next_relationships (g : Graph) : Graph :=
  mkGraph (nodes g) (relationships g ++ next_created g).

(** The [WHERE] clause of the [SIMILAR] query. *)
Definition similar_where (t1 t2 : Transaction) : bool :=
  negb (String.eqb (Transaction_ID t1) (Transaction_ID t2))
  && String.eqb (Transaction_Type t1) (Transaction_Type t2)
  && PrimFloat.ltb
       (PrimFloat.abs (Transaction_Amount t1 - Transaction_Amount t2)%float)
       (0.1 * Transaction_Amount t1)%float
  && (Z.abs (inSeconds t1 t2) <? 3600).

(** [MATCH (t1:Transaction), (t2:Transaction) WHERE ...]: the rows of the
    Cartesian product that pass the filter. *)
Definition similar_rows (g : Graph)
  : list ((nat * Transaction) * (nat * Transaction)) :=
  filter (fun p => similar_where (snd (fst p)) (snd (snd p)))
         (list_prod (match_transactions g) (match_transactions g)).

Definition similar_created (g : Graph) : list Relationship :=
  map (fun p => mkRel (fst (fst p)) SIMILAR (fst (snd p)) None)
      (similar_rows g).

Definition create_similar_relationships (g : Graph) : Graph :=
  mkGraph (nodes g) (relationships g ++ similar_created g).

(** The two edge-construction steps, in the order [main] calls them. *)
Definition build_relationships (g : Graph) : Graph :=
  create_similar_relationships (create_next_relationships g).

(** [main] of [graph_construction.py], on a given store. *)
Definition build_graph (g : Graph) (csv : list CsvRow) : Graph :=
  build_relationships (create_transaction_nodes g (load_data csv)).

(** ** [fmea_implementation.py] *)

(** The aggregates of the statistics query are built into the engine.  They
    are modelled after the Cypher manual: [avg] of no rows is null, otherwise
    the sum over the count; [stDev] is the sample standard deviation and is 0
    when fewer than two values are aggregated.  The engine's rounding in these
    two sums is not modelled beyond binary64 arithmetic. *)
Definition float_of_nat (n : nat) : float :=
  PrimFloat.of_uint63 (Uint63.of_Z (Z.of_nat n)).

Definition float_sum (l : list float) : float :=
  fold_left PrimFloat.add l 0%float.

Definition cypher_avg (l : list float) : option float :=
  match l with
  | [] => None
  | _ :: _ => Some (float_sum l / float_of_nat (List.length l))%float
  end.

Definition cypher_stDev (l : list float) : float :=
  match cypher_avg l with
  | None => 0%float
  | Some m =>
      if (List.length l <? 2)%nat then 0%float
      else PrimFloat.sqrt
             (float_sum (map (fun x => (x - m) * (x - m))%float l)
              / float_of_nat (List.length l - 1))%float
  end.

(** [stats_query]: an aggregation without grouping keys returns one record,
    also over no rows. *)
Definition stats_query (g : Graph) : list (option float * float) :=
  let amounts := map Transaction_Amount (nodes g) in
  [(cypher_avg amounts, cypher_stDev amounts)].

(** [result.single()]: the first record, or [None] when there is none. *)
Definition single {A : Type} (records : list A) : option A :=
  hd_error records.

(** [OPTIONAL MATCH (t)-[r:SIMILAR]->() ... count(r)] for the node at [i]. *)
Definition sim_count (g : Graph) (i : nat) : Z :=
  Z.of_nat
    (List.length
       (filter (fun r => Nat.eqb (rel_start r) i
                         && RelType_eqb (rel_type r) SIMILAR)
               (relationships g))).

(** The severity [CASE].  A null [avg_amt] makes both comparisons null, and a
    null condition does not select its branch. *)
Definition severity_case (amount : float) (avg_amt : option float)
           (std_amt : float) : Z :=
  match avg_amt with
  | None => 3
  | Some avg =>
      if PrimFloat.ltb (avg + 2 * std_amt)%float amount then 10
      else if PrimFloat.ltb (avg + std_amt)%float amount then 7
      else 3
  end.

(** [CASE WHEN sim_count + 1 > 10 THEN 10 ELSE sim_count + 1 END] *)
Definition occurrence_case (sim_count : Z) : Z :=
  if sim_count + 1 >? 10 then 10 else sim_count + 1.

(** [CASE WHEN RPN >= $threshold THEN "High Risk" ELSE "Normal" END] *)
Definition failure_mode_case (rpn threshold : Z) : string :=
  if rpn >=? threshold then "High Risk"%string else "Normal"%string.

(** The [SET] clause on one node. *)
Definition set_risk (t : Transaction) (count : Z) (avg_amt : option float)
           (std_amt : float) (threshold : Z) : Transaction :=
  let sev := severity_case (Transaction_Amount t) avg_amt std_amt in
  let rpn := sev * occurrence_case count * 5 in
  mkTransaction (Transaction_ID t) (Transaction_Type t)
                (Transaction_Amount t) (timestamp t)
                (Some sev) (Some (occurrence_case count)) (Some 5)
                (Some rpn) (Some (failure_mode_case rpn threshold)).

(** [fmea_query]: one row per node, each node updated from its own row. *)
Definition fmea_query (g : Graph) (avg_amt : option float) (std_amt : float)
           (threshold : Z) : Graph :=
  mkGraph
    (map (fun it => set_risk (snd it) (sim_count g (fst it))
                             avg_amt std_amt threshold)
         (match_transactions g))
    (relationships g).

(** [run_fmea]: subscripting the record raises when [single] gave [None];
    nothing else in the function raises. *)
Definition run_fmea (g : Graph) (threshold : Z) : result Graph :=
  match single (stats_query g) with
  | None => Raise "TypeError"
  | Some (avg_amt, std_amt) => Ok (fmea_query g avg_amt std_amt threshold)
  end.

(** [def run_fmea(driver, threshold=30)] *)
Definition default_threshold : Z := 30.

(** ** [summary_report.py] *)

Record Summary := mkSummary {
  total : Z;
  highRisk : Z;
  avgRPN : option Q;
  minRPN : option Z;
  maxRPN : option Z
}.

(** The RPN values the aggregates see: nulls are skipped. *)
Fixpoint rpn_values (l : list Transaction) : list Z :=
  match l with
  | [] => []
  | t :: l' =>
      match RPN t with
      | Some v => v :: rpn_values l'
      | None => rpn_values l'
      end
  end.

Definition Zsum (l : list Z) : Z := fold_right Z.add 0 l.

(** [avg] over integers: the exact mean, null over no values. *)
Definition avg_int (l : list Z) : option Q :=
  match l with
  | [] => None
  | _ :: _ => Some (Qmake (Zsum l) (Pos.of_nat (List.length l)))
  end.

Definition min_int (l : list Z) : option Z :=
  match l with
  | [] => None
  | x :: l' => Some (fold_left Z.min l' x)
  end.

Definition max_int (l : list Z) : option Z :=
  match l with
  | [] => None
  | x :: l' => Some (fold_left Z.max l' x)
  end.

(** [CASE WHEN t.failure_mode = "High Risk" THEN 1 ELSE 0 END] *)
Definition high_risk_case (t : Transaction) : Z :=
  match failure_mode t with
  | Some m => if String.eqb m "High Risk" then 1 else 0
  | None => 0
  end.

Definition summary_query (g : Graph) : list Summary :=
  let rpns := rpn_values (nodes g) in
  [mkSummary (Z.of_nat (List.length (nodes g)))
             (Zsum (map high_risk_case (nodes g)))
             (avg_int rpns) (min_int rpns) (max_int rpns)].

(** [get_summary_report]: [return result.single()]. *)
Definition get_summary_report (g : Graph) : option Summary :=
  single (summary_query g).

(** ** Notions used to state the properties *)

(** Ascending timestamps, as [ORDER BY t.timestamp] compares rows. *)
Definition timestamp_le (x y : nat * Transaction) : Prop :=
  timestamp (snd x) <= timestamp (snd y).

(** The pairs of neighbours of a list, in order. *)
Definition adjacent {A : Type} (l : list A) : list (A * A) :=
  combine l (tl l).

(** What identifies "an edge of a type between an ordered pair". *)
Definition rel_key (r : Relationship) : nat * RelType * nat :=
  (rel_start r, rel_type r, rel_end r).

Definition rel_key_eqb (k : nat * RelType * nat) (r : Relationship) : bool :=
  let '(s, ty, e) := k in
  Nat.eqb (rel_start r) s && RelType_eqb (rel_type r) ty
  && Nat.eqb (rel_end r) e.

(** The node carries the failure mode [m]. *)
Definition has_mode (m : string) (t : Transaction) : bool :=
  match failure_mode t with
  | Some m' => String.eqb m' m
  | None => false
  end.

(** ** Sample stores *)

Definition sample_csv : list CsvRow :=
  [ mkCsvRow "Transfer" 100 0;
    mkCsvRow "Transfer" 111 600;
    mkCsvRow "Debit" 5000 7200 ].

(** The store of the sample rows, before any relationship exists. *)
Definition sample_nodes : Graph :=
  create_transaction_nodes empty_graph (load_data sample_csv).

Definition sample_graph : Graph := build_graph empty_graph sample_csv.

(** The sample store after [run_fmea] with the default threshold. *)
Definition scored_sample : Graph :=
  match run_fmea sample_graph default_threshold with
  | Ok g' => g'
  | Raise _ => sample_graph
  end.

(** Eleven rows with one common instant: their identifiers are ["0"], ...,
    ["10"]. *)
Definition tied_csv : list CsvRow :=
  repeat (mkCsvRow "Debit" 50 0) 11.

(** The store with the eleven tied rows, before any relationship exists. *)
Definition tied_graph : Graph :=
  create_transaction_nodes empty_graph (load_data tied_csv).

(** A store into which the same two tied rows were loaded twice, as two runs
    of [main] on one database leave it: identifiers ["0"], ["1"], ["0"],
    ["1"]. *)
Definition reloaded_graph : Graph :=
  let df := load_data (repeat (mkCsvRow "Debit" 50 0) 2) in
  create_transaction_nodes (create_transaction_nodes empty_graph df) df.

(** Six amounts with mean 100 and sample standard deviation 10, one of them
    exactly at [mean + 2 * stddev]. *)
Definition boundary_graph : Graph :=
  create_transaction_nodes empty_graph
    (load_data [ mkCsvRow "Debit" 120 0; mkCsvRow "Debit" 93 10000;
                 mkCsvRow "Debit" 95 20000; mkCsvRow "Debit" 96 30000;
                 mkCsvRow "Debit" 97 40000; mkCsvRow "Debit" 99 50000 ]).

(** Thirteen like transactions at one instant: each is similar to the twelve
    others. *)
Definition crowd_graph : Graph :=
  build_graph empty_graph (repeat (mkCsvRow "Credit" 100 0) 13).

(** Two transactions of amount 0 next to two of like, non-zero amounts. *)
Definition zero_nodes : Graph :=
  create_transaction_nodes empty_graph
    (load_data [ mkCsvRow "Credit" 0 0; mkCsvRow "Credit" 0 10;
                 mkCsvRow "Credit" 100 20; mkCsvRow "Credit" 105 30 ]).

(** ** [main] of [summary_report.py] *)

(** What one [print] call writes: a literal line, a label followed by an
    integer written by [str], or a label followed by a number written by the
    format [:.2f].  The digits [:.2f] produces are not modelled, only which
    number is formatted. *)
Inductive Printed :=
| Line (text : string)
| LineInt (label : string) (v : Z)
| LineFixed2 (label : string) (v : Q).

(** Printing a line whose f-string formats a nullable number with [:.2f]:
    formatting [None] raises [TypeError] before anything is written. *)
Definition print_fixed2 (label : string) (v : option Q)
           (rest : list Printed * option string)
  : list Printed * option string :=
  match v with
  | Some q => (LineFixed2 label q :: fst rest, snd rest)
  | None => ([], Some "TypeError"%string)
  end.

(** [main], from the call of [get_summary_report] on: the lines printed, and
    the exception that ended the run if there was one.  A record of five
    fields is a non-empty tuple, so [if summary:] tests that a record came
    back at all. *)
Definition summary_main (g : Graph) : list Printed * option string :=
  match get_summary_report g with
  | Some summary =>
      let tail :=
        print_fixed2 "Average RPN: " (avgRPN summary)
          (print_fixed2 "Minimum RPN: " (option_map inject_Z (minRPN summary))
             (print_fixed2 "Maximum RPN: "
                (option_map inject_Z (maxRPN summary))
                ([], None))) in
      (Line "FMEA Summary Report:"
         :: LineInt "Total Transactions: " (total summary)
         :: LineInt "High Risk Transactions: " (highRisk summary)
         :: fst tail,
       snd tail)
  | None => ([Line "No summary data found."], None)
  end.

(** ** Python dictionaries and the NetworkX graph of the views *)

(** A [dict] with string keys: its items in insertion order, keys unique. *)
Definition dict (V : Type) : Type := list (string * V).

Fixpoint dict_mem {V : Type} (k : string) (d : dict V) : bool :=
  match d with
  | [] => false
  | (k', _) :: d' => String.eqb k' k || dict_mem k d'
  end.

Fixpoint dict_get {V : Type} (k : string) (d : dict V) : option V :=
  match d with
  | [] => None
  | (k', v) :: d' => if String.eqb k' k then Some v else dict_get k d'
  end.

(** [d[k] = v]: an existing key keeps its place, a new key goes last. *)
Fixpoint dict_set {V : Type} (k : string) (v : V) (d : dict V) : dict V :=
  match d with
  | [] => [(k, v)]
  | (k', v') :: d' =>
      if String.eqb k' k then (k', v) :: d' else (k', v') :: dict_set k v d'
  end.

(** [if k not in d: d[k] = v] *)
Definition dict_add_missing {V : Type} (k : string) (v : V) (d : dict V)
  : dict V :=
  if dict_mem k d then d else dict_set k v d.

(** [nx.DiGraph]: the node dictionary and the successor dictionary of
    dictionaries.  A node's attribute dictionary is [None] when it is empty
    (a node that [add_edge] had to create). *)
Record DiGraph (NA EA : Type) := mkDiGraph {
  g_node : dict (option NA);
  g_succ : dict (dict EA)
}.
Arguments mkDiGraph {NA EA} g_node g_succ.
Arguments g_node {NA EA} d.
Arguments g_succ {NA EA} d.

Definition empty_DiGraph {NA EA : Type} : DiGraph NA EA := mkDiGraph [] [].

(** [G.add_node(n, **attr)] with every attribute key given. *)
Definition add_node {NA EA : Type} (G : DiGraph NA EA) (n : string) (attr : NA)
  : DiGraph NA EA :=
  mkDiGraph (dict_set n (Some attr) (g_node G))
            (dict_add_missing n [] (g_succ G)).

(** [G.add_edge(u, v, **attr)]: missing endpoints are created without
    attributes; an edge already there has its attributes replaced. *)
Definition add_edge {NA EA : Type} (G : DiGraph NA EA) (u v : string)
           (attr : EA) : DiGraph NA EA :=
  let nd := dict_add_missing v None (dict_add_missing u None (g_node G)) in
  let sc := dict_add_missing v [] (dict_add_missing u [] (g_succ G)) in
  let nbrs := match dict_get u sc with Some d => d | None => [] end in
  mkDiGraph nd (dict_set u (dict_set v attr nbrs) sc).

(** [G.edges(data=True)]: node by node, each node's successors in order. *)
Definition DiGraph_edges {NA EA : Type} (G : DiGraph NA EA)
  : list (string * string * EA) :=
  flat_map (fun un => map (fun ve => (fst un, fst ve, snd ve)) (snd un))
           (g_succ G).

(** ** The rows the two view queries return *)

(** [type(r)] *)
Definition type_name (ty : RelType) : string :=
  match ty with
  | NEXT => "NEXT"
  | SIMILAR => "SIMILAR"
  end.

(** [(t)-[r]->(t2:Transaction)] for the node at [i]: the relationships that
    leave it, each with its end node.  Rows come node by node in scan order
    and, for one node, in the order of the relationship store; the engine
    fixes no order, and nothing proved below depends on it. *)
Definition outgoing (g : Graph) (i : nat) : list (Relationship * Transaction) :=
  flat_map
    (fun r =>
       if Nat.eqb (rel_start r) i then
         match nth_error (nodes g) (rel_end r) with
         | Some t2 => [(r, t2)]
         | None => []
         end
       else [])
    (relationships g).

(** ** [view_fmea_implementation.py] *)

Record FmeaRecord := mkFmeaRecord {
  rec_source : string;
  rec_source_rpn : option Z;
  rec_source_mode : option string;
  rec_target : option string;
  rec_target_rpn : option Z;
  rec_target_mode : option string;
  rec_rel_type : option string
}.

(** [MATCH (t:Transaction) OPTIONAL MATCH (t)-[r]->(t2:Transaction)]: a node
    without outgoing relationship gives one row with null target columns. *)
Definition fmea_rows (g : Graph) : list FmeaRecord :=
  flat_map
    (fun it =>
       let t := snd it in
       match outgoing g (fst it) with
       | [] => [mkFmeaRecord (Transaction_ID t) (RPN t) (failure_mode t)
                             None None None None]
       | out =>
           map (fun rt =>
                  mkFmeaRecord (Transaction_ID t) (RPN t) (failure_mode t)
                               (Some (Transaction_ID (snd rt)))
                               (RPN (snd rt)) (failure_mode (snd rt))
                               (Some (type_name (rel_type (fst rt)))))
               out
       end)
    (match_transactions g).

Record NodeAttr := mkNodeAttr {
  attr_RPN : option Z;
  attr_failure_mode : option string
}.

(** The body of the [for record in results] loop. *)
Definition collect_fmea_record
           (st : dict NodeAttr * list (string * string * option string))
           (record : FmeaRecord)
  : dict NodeAttr * list (string * string * option string) :=
  let src := rec_source record in
  let nodes1 :=
    dict_add_missing src
      (mkNodeAttr (rec_source_rpn record) (rec_source_mode record)) (fst st) in
  match rec_target record with
  | None => (nodes1, snd st)
  | Some tgt =>
      (dict_add_missing tgt
         (mkNodeAttr (rec_target_rpn record) (rec_target_mode record)) nodes1,
       snd st ++ [(src, tgt, rec_rel_type record)])
  end.

Definition collect_fmea (records : list FmeaRecord)
  : dict NodeAttr * list (string * string * option string) :=
  fold_left collect_fmea_record records ([], []).

(** [G = nx.DiGraph()] filled from the two collections. *)
Definition fmea_DiGraph (g : Graph) : DiGraph NodeAttr (option string) :=
  let (nodes_d, edges) := collect_fmea (fmea_rows g) in
  let G1 := fold_left (fun G na => add_node G (fst na) (snd na))
                      nodes_d empty_DiGraph in
  fold_left (fun G e => add_edge G (fst (fst e)) (snd (fst e)) (snd e))
            edges G1.

(** [str] of a nullable integer and of a nullable string, as the f-string
    of the hover text writes them. *)
Definition str_int (v : option Z) : string :=
  match v with
  | Some z => NilEmpty.string_of_int (Z.to_int z)
  | None => "None"
  end.

Definition str_str (v : option string) : string :=
  match v with
  | Some s => s
  | None => "None"
  end.

(** One turn of the loop over [G.nodes(data=True)]: colour and hover text of
    a node; [attr["failure_mode"]] raises [KeyError] on a node without
    attributes. *)
Definition fmea_marker (na : string * option NodeAttr)
  : result (string * string * string) :=
  match snd na with
  | None => Raise "KeyError"
  | Some attr =>
      Ok (fst na,
          match attr_failure_mode attr with
          | Some m => if String.eqb m "High Risk" then "red" else "blue"
          | None => "blue"
          end,
          String.append "ID: "
            (String.append (fst na)
               (String.append "<br>RPN: "
                  (String.append (str_int (attr_RPN attr))
                     (String.append "<br>Mode: "
                        (str_str (attr_failure_mode attr)))))))%string
  end.

Fixpoint fmea_markers (l : dict (option NodeAttr))
  : result (list (string * string * string)) :=
  match l with
  | [] => Ok []
  | na :: l' =>
      match fmea_marker na with
      | Raise e => Raise e
      | Ok m =>
          match fmea_markers l' with
          | Raise e => Raise e
          | Ok ms => Ok (m :: ms)
          end
      end
  end.

(** The figure of [visualize_graph]: the two coordinate lists of the edge
    trace (three entries per edge of [G], the third one [None]) and, marker
    by marker, position, colour and hover text. *)
Record FmeaFigure := mkFmeaFigure {
  edge_x : list (option float);
  edge_y : list (option float);
  node_x : list float;
  node_y : list float;
  node_color : list string;
  node_text : list string
}.

(** [visualize_graph], with the positions [nx.spring_layout] computed taken
    as given: [pos] maps every node of [G] to its coordinates. *)
Definition visualize_graph (pos : string -> float * float) (g : Graph)
  : result FmeaFigure :=
  let G := fmea_DiGraph g in
  let es := DiGraph_edges G in
  match fmea_markers (g_node G) with
  | Raise e => Raise e
  | Ok ms =>
      Ok (mkFmeaFigure
            (flat_map (fun e => [Some (fst (pos (fst (fst e))));
                                 Some (fst (pos (snd (fst e)))); None]) es)
            (flat_map (fun e => [Some (snd (pos (fst (fst e))));
                                 Some (snd (pos (snd (fst e)))); None]) es)
            (map (fun m => fst (pos (fst (fst m)))) ms)
            (map (fun m => snd (pos (fst (fst m)))) ms)
            (map (fun m => snd (fst m)) ms)
            (map (fun m => snd m) ms))
  end.

(** ** [view_original_graph.py] *)

Record EdgeRecord := mkEdgeRecord {
  er_source : string;
  er_rel_type : string;
  er_target : string
}.

(** [MATCH (t:Transaction)-[r]->(t2:Transaction)
     WHERE type(r) IN ['NEXT', 'SIMILAR']] *)
Definition transaction_rows (g : Graph) : list EdgeRecord :=
  flat_map
    (fun it =>
       flat_map
         (fun rt =>
            let ty := type_name (rel_type (fst rt)) in
            if existsb (String.eqb ty) ["NEXT"; "SIMILAR"]%string
            then [mkEdgeRecord (Transaction_ID (snd it)) ty
                               (Transaction_ID (snd rt))]
            else [])
         (outgoing g (fst it)))
    (match_transactions g).

(** [G.add_node(n)]: a new node gets an empty attribute dictionary. *)
Definition add_bare_node {NA EA : Type} (G : DiGraph NA EA) (n : string)
  : DiGraph NA EA :=
  mkDiGraph (dict_add_missing n None (g_node G))
            (dict_add_missing n [] (g_succ G)).

(** The body of the first [for record in results] loop. *)
Definition collect_edge_record
           (st : dict unit * list (string * string * string))
           (record : EdgeRecord)
  : dict unit * list (string * string * string) :=
  let src := er_source record in
  let tgt := er_target record in
  (dict_add_missing tgt tt (dict_add_missing src tt (fst st)),
   snd st ++ [(src, tgt, er_rel_type record)]).

Definition transactions_DiGraph (g : Graph) : DiGraph unit string :=
  let (nodes_d, edges) :=
    fold_left collect_edge_record (transaction_rows g) ([], []) in
  let G1 := fold_left (fun G n => add_bare_node G (fst n))
                      nodes_d empty_DiGraph in
  fold_left (fun G e => add_edge G (fst (fst e)) (snd (fst e)) (snd e))
            edges G1.

(** The figure of [visualize_transactions]: the coordinate lists of the NEXT
    trace and of the SIMILAR trace, and position and hover text of every
    marker.  The list [edge_colors], which the function fills and never
    reads, is left out. *)
Record TransactionsFigure := mkTransactionsFigure {
  next_edge_x : list (option float);
  next_edge_y : list (option float);
  similar_edge_x : list (option float);
  similar_edge_y : list (option float);
  marker_x : list float;
  marker_y : list float;
  marker_text : list string
}.

(** The segments the second loop over the query's records adds to the trace
    of one relationship type. *)
Definition trace_of (ty : string) (coord : float * float -> float)
           (pos : string -> float * float) (rows : list EdgeRecord)
  : list (option float) :=
  flat_map
    (fun record =>
       if String.eqb (er_rel_type record) ty
       then [Some (coord (pos (er_source record)));
             Some (coord (pos (er_target record))); None]
       else [])
    rows.

(** [visualize_transactions], with the layout positions taken as given. *)
Definition visualize_transactions (pos : string -> float * float) (g : Graph)
  : TransactionsFigure :=
  let G := transactions_DiGraph g in
  let rows := transaction_rows g in
  mkTransactionsFigure
    (trace_of "NEXT" fst pos rows) (trace_of "NEXT" snd pos rows)
    (trace_of "SIMILAR" fst pos rows) (trace_of "SIMILAR" snd pos rows)
    (map (fun n => fst (pos (fst n))) (g_node G))
    (map (fun n => snd (pos (fst n))) (g_node G))
    (map (fun n => String.append "Transaction ID: " (fst n)) (g_node G)).

(** A layout for the sample figures. *)
Definition origin_layout (n : string) : float * float := (0%float, 0%float).

(** ** Notions used to state the properties of the views *)

(** The attributes the FMEA view reads off a node. *)
Definition node_attr (t : Transaction) : NodeAttr :=
  mkNodeAttr (RPN t) (failure_mode t).

(** The record's columns come from nodes of the store. *)
Definition record_of_store (g : Graph) (record : FmeaRecord) : Prop :=
  (exists t, In t (nodes g)
             /\ rec_source record = Transaction_ID t
             /\ mkNodeAttr (rec_source_rpn record) (rec_source_mode record)
                = node_attr t)
  /\ match rec_target record with
     | None => True
     | Some k =>
         exists t2, In t2 (nodes g)
                    /\ k = Transaction_ID t2
                    /\ mkNodeAttr (rec_target_rpn record)
                                  (rec_target_mode record)
                       = node_attr t2
     end.

(** Every item of the dictionary describes a node of the store. *)
Definition dict_of_store (g : Graph) (d : dict NodeAttr) : Prop :=
  forall k a, In (k, a) d ->
              exists t, In t (nodes g) /\ Transaction_ID t = k
                        /\ a = node_attr t.

(** Both ends of every collected edge are keys of the dictionary. *)
Definition edges_closed {V L : Type} (d : dict V)
           (edges : list (string * string * L)) : Prop :=
  forall u v l, In (u, v, l) edges ->
                In u (map fst d) /\ In v (map fst d).

(** * Properties *)

(** ** Scanning the node store *)

Lemma nth_error_indexed (A : Type) (l : list A) :
  forall s i,
    nth_error (combine (seq s (List.length l)) l) i
    = option_map (fun x => ((s + i)%nat, x)) (nth_error l i).
Proof.
  induction l as [|x l IH]; intros s i.
  - destruct i; reflexivity.
  - destruct i as [|i]; simpl.
    + now rewrite Nat.add_0_r.
    + rewrite IH. now rewrite Nat.add_succ_r.
Qed.

Lemma nth_error_match_transactions (g : Graph) (i : nat) :
  nth_error (match_transactions g) i
  = option_map (fun t => (i, t)) (nth_error (nodes g) i).
Proof.
  unfold match_transactions. now rewrite nth_error_indexed.
Qed.

Lemma In_match_transactions (g : Graph) (i : nat) (t : Transaction) :
  In (i, t) (match_transactions g) <-> nth_error (nodes g) i = Some t.
Proof.
  split.
  - intros H. apply In_nth_error in H. destruct H as [k Hk].
    rewrite nth_error_match_transactions in Hk.
    destruct (nth_error (nodes g) k) eqn:E; simpl in Hk; [|discriminate].
    now inversion Hk; subst.
  - intros H. apply nth_error_In with (n := i).
    rewrite nth_error_match_transactions, H. reflexivity.
Qed.

Lemma map_fst_match_transactions (g : Graph) :
  map fst (match_transactions g) = seq 0 (List.length (nodes g)).
Proof.
  unfold match_transactions.
  generalize 0%nat. induction (nodes g) as [|x l IH]; intros s; simpl.
  - reflexivity.
  - now rewrite IH.
Qed.

Lemma length_match_transactions (g : Graph) :
  List.length (match_transactions g) = List.length (nodes g).
Proof.
  rewrite <- (length_map fst), map_fst_match_transactions.
  apply length_seq.
Qed.

Lemma nth_error_fmea_query g avg_amt std_amt threshold i :
  nth_error (nodes (fmea_query g avg_amt std_amt threshold)) i
  = option_map
      (fun t => set_risk t (sim_count g i) avg_amt std_amt threshold)
      (nth_error (nodes g) i).
Proof.
  unfold fmea_query; simpl.
  rewrite nth_error_map, nth_error_match_transactions.
  now destruct (nth_error (nodes g) i).
Qed.

Lemma run_fmea_returns g threshold :
  run_fmea g threshold
  = Ok (fmea_query g (cypher_avg (map Transaction_Amount (nodes g)))
                   (cypher_stDev (map Transaction_Amount (nodes g)))
                   threshold).
Proof. reflexivity. Qed.

(** A node of the scored store is the [SET] clause applied to the node that
    was at the same position. *)
Lemma scored_node g threshold g' i t' :
  run_fmea g threshold = Ok g' ->
  nth_error (nodes g') i = Some t' ->
  exists t avg_amt std_amt,
    nth_error (nodes g) i = Some t
    /\ t' = set_risk t (sim_count g i) avg_amt std_amt threshold.
Proof.
  rewrite run_fmea_returns. intros Hrun Hn. inversion Hrun; subst g'.
  rewrite nth_error_fmea_query in Hn.
  destruct (nth_error (nodes g) i) as [t|] eqn:E; simpl in Hn; [|discriminate].
  inversion Hn; subst. eauto.
Qed.

Lemma severity_case_values amount avg_amt std_amt :
  severity_case amount avg_amt std_amt = 3
  \/ severity_case amount avg_amt std_amt = 7
  \/ severity_case amount avg_amt std_amt = 10.
Proof.
  unfold severity_case. destruct avg_amt as [avg|]; auto.
  destruct (PrimFloat.ltb _ amount); auto.
  destruct (PrimFloat.ltb _ amount); auto.
Qed.

Lemma occurrence_case_min c : occurrence_case c = Z.min (c + 1) 10.
Proof.
  unfold occurrence_case. destruct (c + 1 >? 10) eqn:E; lia.
Qed.

Lemma sim_count_nonneg g i : 0 <= sim_count g i.
Proof. unfold sim_count. lia. Qed.

(** ** The Risk Scorer *)

(** C3: with the global mean and standard deviation the statistics query
    returned, the scorer gives a node severity 10 when its amount is strictly
    above mean + 2 stddev, else 7 when strictly above mean + stddev, else 3;
    an amount of 120 with mean 100 and stddev 10 gets 7. *)
Theorem severity_tiers g threshold i t mean stddev :
  nth_error (nodes g) i = Some t ->
  single (stats_query g) = Some (Some mean, stddev) ->
  exists g' t',
    run_fmea g threshold = Ok g'
    /\ nth_error (nodes g') i = Some t'
    /\ (PrimFloat.ltb (mean + 2 * stddev)%float (Transaction_Amount t) = true ->
        severity t' = Some 10)
    /\ (PrimFloat.ltb (mean + 2 * stddev)%float (Transaction_Amount t) = false ->
        PrimFloat.ltb (mean + stddev)%float (Transaction_Amount t) = true ->
        severity t' = Some 7)
    /\ (PrimFloat.ltb (mean + 2 * stddev)%float (Transaction_Amount t) = false ->
        PrimFloat.ltb (mean + stddev)%float (Transaction_Amount t) = false ->
        severity t' = Some 3)
    /\ (mean = 100%float -> stddev = 10%float ->
        Transaction_Amount t = 120%float ->
        severity t' = Some 7).
Proof.
  intros Hn Hs.
  unfold run_fmea. rewrite Hs.
  eexists; eexists. split; [reflexivity|].
  split; [rewrite nth_error_fmea_query, Hn; reflexivity|].
  simpl severity. unfold severity_case.
  repeat split.
  - intros ->. reflexivity.
  - intros -> ->. reflexivity.
  - intros -> ->. reflexivity.
  - intros -> -> ->. reflexivity.
Qed.

Lemma severity_tiers_witness :
  exists g' t',
    run_fmea boundary_graph default_threshold = Ok g'
    /\ nth_error (nodes g') 0 = Some t'
    /\ severity t' = Some 7.
Proof.
  destruct (severity_tiers boundary_graph default_threshold 0
              (mkTransaction "0" "Debit" 120 0 None None None None None)
              100 10 eq_refl eq_refl)
    as (g' & t' & Hrun & Hn & _ & _ & _ & H).
  exists g', t'. repeat split; try assumption.
  apply H; reflexivity.
Defined.

(** C4: the scorer sets occurrence to min(sim_count + 1, 10), where sim_count
    counts the node's outgoing SIMILAR relationships; occurrence never exceeds
    10, and twelve outgoing SIMILAR relationships give 10. *)
Theorem occurrence_capped g threshold i t :
  nth_error (nodes g) i = Some t ->
  exists g' t' o,
    run_fmea g threshold = Ok g'
    /\ nth_error (nodes g') i = Some t'
    /\ occurrence t' = Some o
    /\ o = Z.min (sim_count g i + 1) 10
    /\ o <= 10
    /\ (sim_count g i = 12 -> o = 10).
Proof.
  intros Hn. rewrite run_fmea_returns.
  eexists; eexists; eexists. split; [reflexivity|].
  split; [rewrite nth_error_fmea_query, Hn; reflexivity|].
  simpl occurrence. split; [reflexivity|].
  rewrite occurrence_case_min. repeat split; lia.
Qed.

Lemma occurrence_capped_witness :
  sim_count crowd_graph 4 = 12
  /\ exists g' t',
       run_fmea crowd_graph default_threshold = Ok g'
       /\ nth_error (nodes g') 4 = Some t'
       /\ occurrence t' = Some 10.
Proof.
  assert (Hc : sim_count crowd_graph 4 = 12) by (vm_compute; reflexivity).
  split; [exact Hc|].
  destruct (occurrence_capped crowd_graph default_threshold 4
              (mkTransaction "4" "Credit" 100 0 None None None None None)
              eq_refl)
    as (g' & t' & o & Hrun & Hn & Ho & _ & _ & H12).
  exists g', t'. rewrite Ho, (H12 Hc). auto.
Defined.

(** C5: for every threshold, a scored node is "High Risk" exactly when its RPN
    is at least the threshold and "Normal" otherwise; with the default
    threshold 30, an RPN of 30 is "High Risk" and an RPN of 29 is "Normal". *)
Theorem failure_mode_threshold :
  (forall g threshold g' i t',
      run_fmea g threshold = Ok g' ->
      nth_error (nodes g') i = Some t' ->
      exists rpn,
        RPN t' = Some rpn
        /\ (failure_mode t' = Some "High Risk"%string <-> rpn >= threshold)
        /\ (failure_mode t' = Some "Normal"%string <-> rpn < threshold))
  /\ default_threshold = 30
  /\ failure_mode_case 30 default_threshold = "High Risk"%string
  /\ failure_mode_case 29 default_threshold = "Normal"%string.
Proof.
  split; [|repeat split].
  intros g threshold g' i t' Hrun Hn.
  destruct (scored_node _ _ _ _ _ Hrun Hn) as (t & a & s & _ & ->).
  eexists. split; [reflexivity|].
  simpl failure_mode. unfold failure_mode_case.
  destruct (Z.geb_spec (severity_case (Transaction_Amount t) a s
                        * occurrence_case (sim_count g i) * 5) threshold)
    as [Hge|Hlt].
  - split; split; intros H; try lia; try reflexivity; discriminate H.
  - split; split; intros H; try lia; try reflexivity; discriminate H.
Qed.

Lemma failure_mode_threshold_witness :
  exists t',
    nth_error (nodes scored_sample) 1 = Some t'
    /\ RPN t' = Some 30
    /\ failure_mode t' = Some "High Risk"%string.
Proof.
  pose proof (proj1 failure_mode_threshold sample_graph default_threshold
                scored_sample 1%nat) as H.
  destruct (nth_error (nodes scored_sample) 1) as [t'|] eqn:E;
    [|vm_compute in E; discriminate E].
  destruct (H t' eq_refl eq_refl) as (rpn & Hr & Hh & _).
  exists t'. split; [reflexivity|].
  assert (Hv : RPN t' = Some 30)
    by (vm_compute in E; inversion E; reflexivity).
  split; [exact Hv|].
  apply Hh. rewrite Hv in Hr. inversion Hr. unfold default_threshold. lia.
Defined.

(** C6 as stated fails: on the empty store the statistics query returns a
    null mean, nothing is raised, and [run_fmea] returns normally. *)
Lemma run_fmea_empty_no_failure :
  single (stats_query empty_graph) = Some (None, 0%float)
  /\ run_fmea empty_graph default_threshold = Ok empty_graph
  /\ ~ (exists exn, run_fmea empty_graph default_threshold = Raise exn).
Proof.
  repeat split.
  intros [exn H]. discriminate H.
Qed.

(** C6, amended: on a store without nodes the statistics query returns one
    record with a null mean and standard deviation 0, [run_fmea] raises
    nothing, and the scoring query, matching no node, leaves the store as it
    was. *)
Theorem run_fmea_empty_store g threshold :
  nodes g = [] ->
  single (stats_query g) = Some (None, 0%float)
  /\ run_fmea g threshold = Ok g.
Proof.
  intros Hn. destruct g as [ns rs]. simpl in Hn. subst ns.
  split; reflexivity.
Qed.

Lemma run_fmea_empty_store_witness :
  single (stats_query empty_graph) = Some (None, 0%float)
  /\ run_fmea empty_graph 30 = Ok empty_graph.
Proof.
  apply (run_fmea_empty_store empty_graph 30). reflexivity.
Defined.

(** C8: after a run of the scorer every node has severity 3, 7 or 10,
    occurrence between 1 and 10, detection 5, RPN equal to
    severity * occurrence * detection and between 15 and 500, and failure
    mode "High Risk" or "Normal". *)
Theorem scored_node_invariant g threshold g' i t' :
  run_fmea g threshold = Ok g' ->
  nth_error (nodes g') i = Some t' ->
  exists s o d r m,
    severity t' = Some s /\ (s = 3 \/ s = 7 \/ s = 10)
    /\ occurrence t' = Some o /\ 1 <= o <= 10
    /\ detection t' = Some d /\ d = 5
    /\ RPN t' = Some r /\ r = s * o * d /\ 15 <= r <= 500
    /\ failure_mode t' = Some m
    /\ (m = "High Risk"%string \/ m = "Normal"%string).
Proof.
  intros Hrun Hn.
  destruct (scored_node _ _ _ _ _ Hrun Hn) as (t & a & sd & _ & ->).
  simpl.
  set (s := severity_case (Transaction_Amount t) a sd).
  set (o := occurrence_case (sim_count g i)).
  assert (Hs : s = 3 \/ s = 7 \/ s = 10) by apply severity_case_values.
  assert (Ho : 1 <= o <= 10).
  { unfold o. rewrite occurrence_case_min.
    pose proof (sim_count_nonneg g i). lia. }
  clearbody s o.
  exists s, o, 5, (s * o * 5), (failure_mode_case (s * o * 5) threshold).
  repeat split; try reflexivity; try lia; try assumption.
  all: try (destruct Hs as [ -> | [ -> | -> ] ]; lia).
  unfold failure_mode_case. destruct (_ >=? _); auto.
Qed.

Lemma scored_node_invariant_witness :
  exists t' s o d r m,
    nth_error (nodes scored_sample) 2 = Some t'
    /\ severity t' = Some s /\ (s = 3 \/ s = 7 \/ s = 10)
    /\ occurrence t' = Some o /\ 1 <= o <= 10
    /\ detection t' = Some d /\ d = 5
    /\ RPN t' = Some r /\ r = s * o * d /\ 15 <= r <= 500
    /\ failure_mode t' = Some m
    /\ (m = "High Risk"%string \/ m = "Normal"%string).
Proof.
  pose proof (scored_node_invariant sample_graph default_threshold
                scored_sample 2%nat) as H.
  destruct (nth_error (nodes scored_sample) 2) as [t'|] eqn:E;
    [|vm_compute in E; discriminate E].
  destruct (H t' eq_refl eq_refl) as (s & o & d & r & m & Hall).
  exists t', s, o, d, r, m. split; [reflexivity|exact Hall].
Defined.

(** ** The Record Normalizer *)

(** C10: [load_data] returns the first 1000 rows of the cleaned frame and
    nothing else, so a row at position 1000 or later never becomes a node. *)
Theorem load_data_first_1000 (csv : list CsvRow) :
  load_data csv = firstn 1000 (cleaned_frame csv)
  /\ List.length (load_data csv) = Nat.min 1000 (List.length csv)
  /\ (List.length (load_data csv) <= 1000)%nat
  /\ (forall k, nth_error (load_data csv) (1000 + k) = None)
  /\ nodes (build_graph empty_graph csv)
     = map node_of_row (firstn 1000 (cleaned_frame csv)).
Proof.
  assert (Hlen : List.length (load_data csv) = Nat.min 1000 (List.length csv)).
  { unfold load_data, cleaned_frame.
    rewrite length_firstn, length_map, length_combine, length_seq.
    now rewrite Nat.min_id. }
  split; [reflexivity|]. split; [exact Hlen|].
  split; [rewrite Hlen; apply Nat.le_min_l|].
  split; [|reflexivity].
  intros k. apply nth_error_None. rewrite Hlen.
  etransitivity; [apply Nat.le_min_l|]. apply Nat.le_add_r.
Qed.

(** ** The Graph Builder: SIMILAR *)

Lemma similar_where_true (a b : Transaction) :
  similar_where a b = true
  <-> Transaction_ID a <> Transaction_ID b
      /\ Transaction_Type a = Transaction_Type b
      /\ PrimFloat.ltb
           (PrimFloat.abs (Transaction_Amount a - Transaction_Amount b)%float)
           (0.1 * Transaction_Amount a)%float = true
      /\ Z.abs (timestamp a - timestamp b) < 3600.
Proof.
  unfold similar_where, inSeconds.
  rewrite !andb_true_iff, negb_true_iff, Z.ltb_lt.
  rewrite <- (Z.abs_opp (timestamp a - timestamp b)).
  replace (- (timestamp a - timestamp b)) with (timestamp b - timestamp a)
    by ring.
  destruct (String.eqb_spec (Transaction_ID a) (Transaction_ID b)) as [E|E];
    destruct (String.eqb_spec (Transaction_Type a) (Transaction_Type b))
      as [E'|E'];
    intuition (try discriminate; try congruence).
Qed.

Lemma In_similar_created (g : Graph) (i j : nat) (a b : Transaction) :
  nth_error (nodes g) i = Some a ->
  nth_error (nodes g) j = Some b ->
  In (mkRel i SIMILAR j None) (similar_created g)
  <-> similar_where a b = true.
Proof.
  intros Ha Hb. unfold similar_created, similar_rows.
  rewrite in_map_iff. split.
  - intros ([[i' a'] [j' b']] & Heq & Hin).
    simpl in Heq. inversion Heq; subst i' j'.
    apply filter_In in Hin. destruct Hin as [Hprod Hw]. simpl in Hw.
    apply in_prod_iff in Hprod. destruct Hprod as [Hi Hj].
    apply In_match_transactions in Hi, Hj.
    congruence.
  - intros Hw. exists ((i, a), (j, b)). split; [reflexivity|].
    apply filter_In. split; [|exact Hw].
    apply in_prod_iff. split; now apply In_match_transactions.
Qed.

(** C1: the SIMILAR query creates a relationship from node a to node b
    exactly when their identifiers differ, their types are equal, the
    difference of amounts is strictly below a tenth of a's amount, and their
    timestamps are strictly less than 3600 seconds apart; with amounts 100
    and 111 (types equal, timestamps in the window) only the relationship
    from the 111 node to the 100 node is created. *)
Theorem similar_relationship_iff g i j a b :
  nth_error (nodes g) i = Some a ->
  nth_error (nodes g) j = Some b ->
  relationships (create_similar_relationships g)
  = relationships g ++ similar_created g
  /\ (In (mkRel i SIMILAR j None) (similar_created g)
      <-> Transaction_ID a <> Transaction_ID b
          /\ Transaction_Type a = Transaction_Type b
          /\ PrimFloat.ltb
               (PrimFloat.abs
                  (Transaction_Amount a - Transaction_Amount b)%float)
               (0.1 * Transaction_Amount a)%float = true
          /\ Z.abs (timestamp a - timestamp b) < 3600)
  /\ (Transaction_ID a <> Transaction_ID b ->
      Transaction_Type a = Transaction_Type b ->
      Z.abs (timestamp a - timestamp b) < 3600 ->
      Transaction_Amount a = 100%float ->
      Transaction_Amount b = 111%float ->
      ~ In (mkRel i SIMILAR j None) (similar_created g)
      /\ In (mkRel j SIMILAR i None) (similar_created g)).
Proof.
  intros Ha Hb. split; [reflexivity|]. split.
  - rewrite (In_similar_created g i j a b Ha Hb). apply similar_where_true.
  - intros Hid Hty Hts Hamt_a Hamt_b.
    rewrite (In_similar_created g i j a b Ha Hb).
    rewrite (In_similar_created g j i b a Hb Ha).
    rewrite !similar_where_true, Hamt_a, Hamt_b. split.
    + intros (_ & _ & Hlt & _). vm_compute in Hlt. discriminate Hlt.
    + repeat split; try congruence.
      rewrite <- Z.abs_opp.
      replace (- (timestamp b - timestamp a)) with (timestamp a - timestamp b)
        by ring.
      exact Hts.
Qed.

Lemma similar_relationship_iff_witness :
  ~ In (mkRel 0 SIMILAR 1 None) (similar_created sample_graph)
  /\ In (mkRel 1 SIMILAR 0 None) (similar_created sample_graph).
Proof.
  apply (similar_relationship_iff sample_graph 0 1
           (mkTransaction "0" "Transfer" 100 0 None None None None None)
           (mkTransaction "1" "Transfer" 111 600 None None None None None)
           eq_refl eq_refl).
  - simpl. discriminate.
  - reflexivity.
  - simpl. lia.
  - reflexivity.
  - reflexivity.
Defined.

(** ** The Report Aggregator *)

Lemma has_mode_spec m t : has_mode m t = true <-> failure_mode t = Some m.
Proof.
  unfold has_mode. destruct (failure_mode t) as [m'|].
  - rewrite String.eqb_eq. split; congruence.
  - split; discriminate.
Qed.

Lemma Zsum_high_risk (l : list Transaction) :
  Zsum (map high_risk_case l)
  = Z.of_nat (List.length (filter (has_mode "High Risk") l)).
Proof.
  induction l as [|t l IH]; [reflexivity|].
  cbn [map Zsum fold_right filter]. fold (Zsum (map high_risk_case l)).
  rewrite IH. unfold high_risk_case, has_mode.
  destruct (failure_mode t) as [m|]; [|lia].
  destruct (String.eqb m "High Risk"); cbn [List.length]; lia.
Qed.

Lemma fold_min_lower (l : list Z) :
  forall x, fold_left Z.min l x <= x
            /\ Forall (fun y => fold_left Z.min l x <= y) l.
Proof.
  induction l as [|y l IH]; intros x; simpl.
  - split; [lia|constructor].
  - destruct (IH (Z.min x y)) as [H1 H2]. split; [lia|].
    constructor; [lia|exact H2].
Qed.

Lemma fold_max_upper (l : list Z) :
  forall x, x <= fold_left Z.max l x
            /\ Forall (fun y => y <= fold_left Z.max l x) l.
Proof.
  induction l as [|y l IH]; intros x; simpl.
  - split; [lia|constructor].
  - destruct (IH (Z.max x y)) as [H1 H2]. split; [lia|].
    constructor; [lia|exact H2].
Qed.

Lemma Zsum_between (lo hi : Z) (l : list Z) :
  Forall (fun y => lo <= y <= hi) l ->
  lo * Z.of_nat (List.length l) <= Zsum l <= hi * Z.of_nat (List.length l).
Proof.
  induction 1 as [|y l Hy _ IH].
  - simpl. lia.
  - cbn [Zsum fold_right List.length]. fold (Zsum l).
    rewrite Nat2Z.inj_succ. lia.
Qed.

Lemma rpn_values_scored (l : list Transaction) :
  Forall (fun t => RPN t <> None) l ->
  List.length (rpn_values l) = List.length l
  /\ forall t v, In t l -> RPN t = Some v -> In v (rpn_values l).
Proof.
  induction 1 as [|t l Ht _ [IHlen IHin]]; simpl.
  - split; [reflexivity|]. intros t v [].
  - destruct (RPN t) as [w|] eqn:E; [|congruence]. simpl.
    split; [now rewrite IHlen|].
    intros t0 v [<-|Hin] Hv.
    + left. congruence.
    + right. eauto.
Qed.

(** C9: on a store that is not empty and whose nodes all carry an RPN, the
    report gives total = number of nodes, highRisk = number of nodes whose
    failure mode is "High Risk", and minRPN <= avgRPN <= maxRPN, where minRPN
    and maxRPN bound the RPN of every node. *)
Theorem summary_consistent (g : Graph) :
  nodes g <> [] ->
  Forall (fun t => RPN t <> None) (nodes g) ->
  exists r mn av mx,
    get_summary_report g = Some r
    /\ total r = Z.of_nat (List.length (nodes g))
    /\ highRisk r
       = Z.of_nat (List.length (filter (has_mode "High Risk") (nodes g)))
    /\ minRPN r = Some mn /\ avgRPN r = Some av /\ maxRPN r = Some mx
    /\ (inject_Z mn <= av)%Q /\ (av <= inject_Z mx)%Q
    /\ (forall t v, In t (nodes g) -> RPN t = Some v -> mn <= v <= mx).
Proof.
  intros Hne Hsc.
  destruct (rpn_values_scored _ Hsc) as [Hlen Hin].
  unfold get_summary_report, summary_query, single. simpl hd_error.
  destruct (rpn_values (nodes g)) as [|x l] eqn:E.
  { destruct (nodes g); [congruence|discriminate Hlen]. }
  destruct (fold_min_lower l x) as [Hmx Hml].
  destruct (fold_max_upper l x) as [HMx HMl].
  set (mn := fold_left Z.min l x) in *.
  set (mx := fold_left Z.max l x) in *.
  assert (Hall : Forall (fun y => mn <= y <= mx) (x :: l)).
  { constructor; [lia|].
    rewrite Forall_forall in *. intros y Hy.
    specialize (Hml y Hy). specialize (HMl y Hy). simpl in *. lia. }
  eexists; exists mn; eexists; exists mx.
  split; [reflexivity|].
  cbn [total highRisk minRPN avgRPN maxRPN avg_int min_int max_int].
  split; [reflexivity|]. split; [apply Zsum_high_risk|].
  do 3 (split; [reflexivity|]).
  pose proof (Zsum_between mn mx (x :: l) Hall) as Hsum.
  assert (Hpos : Z.pos (Pos.of_nat (List.length (x :: l)))
                 = Z.of_nat (List.length (x :: l))).
  { rewrite <- positive_nat_Z. f_equal. apply Nat2Pos.id. discriminate. }
  repeat split.
  - unfold Qle. cbn [Qnum Qden inject_Z]. rewrite Hpos. lia.
  - unfold Qle. cbn [Qnum Qden inject_Z]. rewrite Hpos. lia.
  - rewrite Forall_forall in Hall. apply Hall. eauto.
  - rewrite Forall_forall in Hall. apply Hall. eauto.
Qed.

Lemma summary_consistent_witness :
  exists r mn av mx,
    get_summary_report scored_sample = Some r
    /\ total r = 3 /\ highRisk r = 2
    /\ minRPN r = Some mn /\ avgRPN r = Some av /\ maxRPN r = Some mx
    /\ (inject_Z mn <= av)%Q /\ (av <= inject_Z mx)%Q.
Proof.
  destruct (summary_consistent scored_sample)
    as (r & mn & av & mx & Hr & Ht & Hh & Hmn & Hav & Hmx & Hlo & Hhi & _).
  - vm_compute. discriminate.
  - vm_compute. repeat constructor; discriminate.
  - exists r, mn, av, mx.
    assert (E : r = mkSummary 3 2 (Some (80 # 3)) (Some 15) (Some 35))
      by (vm_compute in Hr; now inversion Hr).
    subst r. repeat split; try assumption; reflexivity.
Defined.

(** ** The Graph Builder: NEXT *)

Lemma insert_by_timestamp_perm x l :
  Permutation (insert_by_timestamp x l) (x :: l).
Proof.
  induction l as [|y l IH]; simpl.
  - apply Permutation_refl.
  - destruct (timestamp (snd y) <=? timestamp (snd x)).
    + apply Permutation_trans with (y :: x :: l).
      * now apply perm_skip.
      * apply perm_swap.
    + apply Permutation_refl.
Qed.

Lemma insert_by_timestamp_sorted x l :
  StronglySorted timestamp_le l ->
  StronglySorted timestamp_le (insert_by_timestamp x l).
Proof.
  induction 1 as [|y l Hs IH Hy]; simpl.
  - repeat constructor.
  - destruct (Z.leb_spec (timestamp (snd y)) (timestamp (snd x))) as [Hle|Hgt].
    + constructor; [exact IH|].
      apply (Permutation_Forall (Permutation_sym (insert_by_timestamp_perm x l))).
      constructor; [exact Hle|exact Hy].
    + constructor; [now constructor|].
      constructor; [unfold timestamp_le; lia|].
      eapply Forall_impl; [|exact Hy].
      unfold timestamp_le. intros z Hz. lia.
Qed.

Lemma order_by_timestamp_perm l : Permutation (order_by_timestamp l) l.
Proof.
  unfold order_by_timestamp.
  assert (H : forall acc,
             Permutation
               (fold_left (fun acc x => insert_by_timestamp x acc) l acc)
               (acc ++ l)).
  { induction l as [|x l IH]; intros acc; simpl.
    - now rewrite app_nil_r.
    - eapply Permutation_trans; [apply IH|].
      apply Permutation_trans with ((x :: acc) ++ l).
      + apply Permutation_app_tail, insert_by_timestamp_perm.
      + simpl. apply Permutation_middle. }
  apply (H []).
Qed.

Lemma order_by_timestamp_sorted l :
  StronglySorted timestamp_le (order_by_timestamp l).
Proof.
  unfold order_by_timestamp.
  assert (H : forall acc,
             StronglySorted timestamp_le acc ->
             StronglySorted timestamp_le
               (fold_left (fun acc x => insert_by_timestamp x acc) l acc)).
  { induction l as [|x l IH]; intros acc Hacc; simpl.
    - exact Hacc.
    - apply IH, insert_by_timestamp_sorted, Hacc. }
  apply H. constructor.
Qed.

Lemma length_adjacent (A : Type) (l : list A) :
  List.length (adjacent l) = (List.length l - 1)%nat.
Proof.
  unfold adjacent. rewrite length_combine.
  destruct l as [|x l]; cbn [List.length tl]; lia.
Qed.

Lemma nth_error_adjacent (A : Type) (l : list A) :
  forall k x y,
    nth_error l k = Some x -> nth_error l (S k) = Some y ->
    nth_error (adjacent l) k = Some (x, y).
Proof.
  induction l as [|a l IH]; intros k x y Hx Hy.
  - destruct k; discriminate.
  - destruct l as [|b l]; [destruct k; discriminate Hy|].
    destruct k as [|k].
    + simpl in *. congruence.
    + apply (IH k x y Hx Hy).
Qed.

Lemma adjacent_fst_prefix (A : Type) (l : list A) :
  exists rest, l = map fst (adjacent l) ++ rest.
Proof.
  induction l as [|a l [rest IH]].
  - now exists [].
  - destruct l as [|b l].
    + now exists [a].
    + exists rest. unfold adjacent in *. simpl in *. now rewrite <- IH.
Qed.

Lemma cypher_range_from_0 (n : nat) :
  cypher_range 0 (Z.of_nat n - 2) = map Z.of_nat (seq 0 (n - 1)).
Proof.
  unfold cypher_range.
  replace (Z.to_nat (Z.of_nat n - 2 - 0 + 1)) with (n - 1)%nat by lia.
  apply map_ext. intros k. lia.
Qed.

Lemma cypher_index_nat (A : Type) (l : list A) (k : nat) :
  cypher_index l (Z.of_nat k) = nth_error l k
  /\ cypher_index l (Z.of_nat k + 1) = nth_error l (S k).
Proof.
  unfold cypher_index.
  destruct (Z.leb_spec 0 (Z.of_nat k)); [|lia].
  destruct (Z.leb_spec 0 (Z.of_nat k + 1)); [|lia].
  rewrite Nat2Z.id. split; [reflexivity|]. f_equal. lia.
Qed.

(** The [UNWIND range(...)] loop walks the neighbours of the ordered list. *)
Lemma unwind_adjacent (A B : Type) (f : A -> A -> B) (l : list A) :
  flat_map
    (fun idx =>
       match cypher_index l idx, cypher_index l (idx + 1) with
       | Some t1, Some t2 => [f t1 t2]
       | _, _ => []
       end)
    (cypher_range 0 (Z.of_nat (List.length l) - 2))
  = map (fun p => f (fst p) (snd p)) (adjacent l).
Proof.
  rewrite cypher_range_from_0, flat_map_concat_map, map_map.
  rewrite <- flat_map_concat_map.
  erewrite flat_map_ext.
  2:{ intros k. destruct (cypher_index_nat A l k) as [-> ->]. reflexivity. }
  induction l as [|a l IH]; [reflexivity|].
  destruct l as [|b l]; [reflexivity|].
  cbn [List.length]. rewrite Nat.sub_succ, Nat.sub_0_r.
  cbn [List.length] in IH. rewrite Nat.sub_succ, Nat.sub_0_r in IH.
  cbn [seq flat_map]. rewrite <- seq_shift.
  rewrite flat_map_concat_map, map_map, <- flat_map_concat_map.
  cbn [nth_error]. cbn [nth_error] in IH. rewrite IH. reflexivity.
Qed.

Lemma next_created_adjacent (g : Graph) :
  next_created g
  = map (fun p => mkRel (fst (fst p)) NEXT (fst (snd p))
                        (Some (inSeconds (snd (fst p)) (snd (snd p)))))
        (adjacent (order_by_timestamp (match_transactions g))).
Proof.
  unfold next_created.
  apply (unwind_adjacent _ _
           (fun t1 t2 => mkRel (fst t1) NEXT (fst t2)
                               (Some (inSeconds (snd t1) (snd t2))))).
Qed.

Lemma StronglySorted_nth_error (A : Type) (R : A -> A -> Prop) (l : list A) :
  StronglySorted R l ->
  forall i j x y,
    (i < j)%nat -> nth_error l i = Some x -> nth_error l j = Some y -> R x y.
Proof.
  induction 1 as [|a l Hs IH Ha]; intros i j x y Hij Hx Hy.
  - destruct i; discriminate.
  - destruct j as [|j]; [lia|]. simpl in Hy.
    destruct i as [|i]; simpl in Hx.
    + inversion Hx; subst a.
      rewrite Forall_forall in Ha. eapply Ha, nth_error_In, Hy.
    + apply (IH i j x y); [lia|assumption|assumption].
Qed.

(** C2 as stated fails on its tie-break.  Among the ten NEXT relationships
    of the tied store one joins two nodes of equal timestamp whose identifiers
    are in descending order (from "9" to "10": identifiers are strings); and
    in the store loaded twice one goes from identifier "1" to identifier
    "0". *)
Lemma next_ties_not_by_identifier :
  ~ (forall r a b,
        In r (next_created tied_graph) ->
        nth_error (nodes tied_graph) (rel_start r) = Some a ->
        nth_error (nodes tied_graph) (rel_end r) = Some b ->
        timestamp a < timestamp b
        \/ (timestamp a = timestamp b
            /\ String.leb (Transaction_ID a) (Transaction_ID b) = true))
  /\ ~ (forall r a b,
           In r (next_created reloaded_graph) ->
           nth_error (nodes reloaded_graph) (rel_start r) = Some a ->
           nth_error (nodes reloaded_graph) (rel_end r) = Some b ->
           timestamp a < timestamp b
           \/ (timestamp a = timestamp b
               /\ String.leb (Transaction_ID a) (Transaction_ID b) = true)).
Proof.
  split; intros H.
  - specialize (H (mkRel 9 NEXT 10 (Some 0))
                  (mkTransaction "9" "Debit" 50 0 None None None None None)
                  (mkTransaction "10" "Debit" 50 0 None None None None None)).
    destruct H as [Hlt|[_ Hle]].
    + vm_compute. do 9 right. left. reflexivity.
    + reflexivity.
    + reflexivity.
    + simpl in Hlt. lia.
    + vm_compute in Hle. discriminate Hle.
  - specialize (H (mkRel 1 NEXT 2 (Some 0))
                  (mkTransaction "1" "Debit" 50 0 None None None None None)
                  (mkTransaction "0" "Debit" 50 0 None None None None None)).
    destruct H as [Hlt|[_ Hle]].
    + vm_compute. right. left. reflexivity.
    + reflexivity.
    + reflexivity.
    + simpl in Hlt. lia.
    + vm_compute in Hle. discriminate Hle.
Qed.

(** C2, amended: for a store of n >= 1 nodes the NEXT query creates exactly
    n - 1 relationships; they join the neighbours of one chain that holds
    every node exactly once in ascending timestamp order (the query orders by
    timestamp only, nodes with equal timestamps are not ordered by
    identifier); each relationship carries the difference in seconds between
    its end node's and its start node's timestamps, which is never
    negative. *)
Theorem next_chain (g : Graph) :
  (1 <= List.length (nodes g))%nat ->
  exists chain : list (nat * Transaction),
    Permutation chain (match_transactions g)
    /\ Permutation (map fst chain) (seq 0 (List.length (nodes g)))
    /\ StronglySorted timestamp_le chain
    /\ relationships (create_next_relationships g)
       = relationships g ++ next_created g
    /\ List.length (next_created g) = (List.length (nodes g) - 1)%nat
    /\ forall k,
         (k < List.length (nodes g) - 1)%nat ->
         exists x y,
           nth_error chain k = Some x
           /\ nth_error chain (S k) = Some y
           /\ nth_error (next_created g) k
              = Some (mkRel (fst x) NEXT (fst y)
                            (Some (timestamp (snd y) - timestamp (snd x))))
           /\ 0 <= timestamp (snd y) - timestamp (snd x).
Proof.
  intros Hn.
  set (chain := order_by_timestamp (match_transactions g)).
  assert (Hperm : Permutation chain (match_transactions g))
    by apply order_by_timestamp_perm.
  assert (Hsorted : StronglySorted timestamp_le chain)
    by apply order_by_timestamp_sorted.
  assert (Hlen : List.length chain = List.length (nodes g)).
  { rewrite (Permutation_length Hperm). apply length_match_transactions. }
  exists chain. split; [exact Hperm|]. split.
  { rewrite <- map_fst_match_transactions. now apply Permutation_map. }
  split; [exact Hsorted|]. split; [reflexivity|].
  rewrite next_created_adjacent. fold chain. split.
  { now rewrite length_map, length_adjacent, Hlen. }
  intros k Hk.
  destruct (nth_error chain k) as [x|] eqn:Ex;
    [|apply nth_error_None in Ex; lia].
  destruct (nth_error chain (S k)) as [y|] eqn:Ey;
    [|apply nth_error_None in Ey; lia].
  exists x, y. split; [reflexivity|]. split; [reflexivity|]. split.
  - rewrite nth_error_map, (nth_error_adjacent _ chain k x y Ex Ey).
    reflexivity.
  - assert (Hxy : timestamp_le x y).
    { apply (StronglySorted_nth_error _ _ _ Hsorted k (S k)); auto. }
    unfold timestamp_le in Hxy. lia.
Qed.

Lemma next_chain_witness :
  exists chain : list (nat * Transaction),
    Permutation (map fst chain) (seq 0 3)
    /\ StronglySorted timestamp_le chain
    /\ List.length (next_created sample_graph) = 2%nat.
Proof.
  destruct (next_chain sample_graph) as (chain & _ & Hp & Hs & _ & Hl & _).
  - vm_compute. repeat constructor.
  - exists chain. repeat split; assumption.
Defined.

(** ** Repeated runs of the edge construction *)

Lemma NoDup_list_prod (A B : Type) (l : list A) (l' : list B) :
  NoDup l -> NoDup l' -> NoDup (list_prod l l').
Proof.
  intros Hl Hl'. induction Hl as [|a l Ha _ IH]; simpl.
  - constructor.
  - apply NoDup_app.
    + apply Finite.Injective_map_NoDup; [|exact Hl'].
      intros x y Hxy. now inversion Hxy.
    + exact IH.
    + intros [a' b'] Hin1 Hin2.
      apply in_map_iff in Hin1. destruct Hin1 as (b & Heq & _).
      inversion Heq; subst a' b'.
      apply in_prod_iff in Hin2. now destruct Hin2.
Qed.

Section FilteredKeys.
Variables (Row' Key : Type) (key : Row' -> Key) (keep : Row' -> bool).

(** A [WHERE] clause drops rows, so keys that were distinct stay so. *)
Lemma where_keeps_keys_distinct :
  forall rows, NoDup (map key rows) -> NoDup (map key (filter keep rows)).
Proof.
  intros rows. induction rows as [|a rows IH]; simpl; intros H.
  - constructor.
  - apply NoDup_cons_iff in H. destruct H as [Hnotin Hnd].
    destruct (keep a); simpl; [|now apply IH].
    constructor; [|now apply IH].
    rewrite in_map_iff. intros (x & Hx & Hf).
    apply Hnotin. rewrite in_map_iff. exists x.
    apply filter_In in Hf. tauto.
Qed.
End FilteredKeys.

Lemma NoDup_fst_match_transactions (g : Graph) :
  NoDup (map fst (match_transactions g)).
Proof. rewrite map_fst_match_transactions. apply seq_NoDup. Qed.

Lemma next_created_keys_NoDup (g : Graph) :
  NoDup (map rel_key (next_created g)).
Proof.
  apply (NoDup_map_inv (fun k => fst (fst k))).
  rewrite next_created_adjacent, !map_map. cbn [rel_key rel_start fst].
  set (chain := order_by_timestamp (match_transactions g)).
  assert (Hnd : NoDup (map fst chain)).
  { apply (Permutation_NoDup
             (Permutation_map fst
                (Permutation_sym (order_by_timestamp_perm _)))).
    apply NoDup_fst_match_transactions. }
  destruct (adjacent_fst_prefix _ chain) as [rest Hrest].
  rewrite Hrest, map_app, map_map in Hnd.
  apply NoDup_app_remove_r in Hnd. exact Hnd.
Qed.

Lemma similar_created_keys_NoDup (g : Graph) :
  NoDup (map rel_key (similar_created g)).
Proof.
  unfold similar_created, similar_rows. rewrite map_map.
  apply where_keeps_keys_distinct.
  rewrite (map_ext _ (fun p : (nat * Transaction) * (nat * Transaction) =>
                        (fst (fst p), SIMILAR, fst (snd p))))
    by reflexivity.
  set (mt := match_transactions g).
  assert (E : map (fun p : (nat * Transaction) * (nat * Transaction) =>
                     (fst (fst p), SIMILAR, fst (snd p)))
                  (list_prod mt mt)
              = map (fun q : nat * nat => (fst q, SIMILAR, snd q))
                    (list_prod (map fst mt) (map fst mt))).
  { generalize mt at 2 4 as l2. intros l2.
    induction mt as [|a l IH]; [reflexivity|].
    simpl. rewrite !map_app, !map_map, IH. reflexivity. }
  rewrite E.
  apply Finite.Injective_map_NoDup.
  - intros [a b] [a' b'] H. now inversion H.
  - apply NoDup_list_prod; apply NoDup_fst_match_transactions.
Qed.

Lemma next_created_type (g : Graph) (r : Relationship) :
  In r (next_created g) -> rel_type r = NEXT.
Proof.
  rewrite next_created_adjacent, in_map_iff.
  intros (p & <- & _). reflexivity.
Qed.

Lemma similar_created_type (g : Graph) (r : Relationship) :
  In r (similar_created g) -> rel_type r = SIMILAR.
Proof.
  unfold similar_created. rewrite in_map_iff.
  intros (p & <- & _). reflexivity.
Qed.

(** C7 as stated fails: a second run of the two edge-construction steps on
    the sample store leaves two NEXT relationships from node 0 to node 1 and
    twice as many relationships as one run. *)
Lemma second_run_duplicates :
  let once := build_relationships sample_nodes in
  let twice := build_relationships once in
  List.length (filter (rel_key_eqb (0%nat, NEXT, 1%nat)) (relationships once))
  = 1%nat
  /\ List.length
       (filter (rel_key_eqb (0%nat, NEXT, 1%nat)) (relationships twice))
     = 2%nat
  /\ List.length (relationships twice)
     = (2 * List.length (relationships once))%nat
  /\ relationships twice <> relationships once.
Proof.
  repeat split.
  intros H. apply (f_equal (@List.length Relationship)) in H.
  vm_compute in H. discriminate H.
Qed.

(** C7, amended: one run of the two edge-construction steps on a store
    without relationships creates at most one relationship of each type per
    ordered pair of nodes; the steps use CREATE, so a second run on the same
    store creates every relationship again and each one then exists twice. *)
Theorem build_relationships_once_and_twice (g : Graph) :
  relationships g = [] ->
  NoDup (map rel_key (relationships (build_relationships g)))
  /\ relationships (build_relationships (build_relationships g))
     = relationships (build_relationships g)
       ++ relationships (build_relationships g).
Proof.
  intros Hg. unfold build_relationships, create_similar_relationships,
    create_next_relationships. cbn [relationships nodes]. rewrite Hg.
  cbn [app].
  change (similar_created (mkGraph (nodes g) (next_created g)))
    with (similar_created g).
  change (next_created
            (mkGraph (nodes g) (next_created g ++ similar_created g)))
    with (next_created g).
  change (similar_created
            (mkGraph (nodes g)
               ((next_created g ++ similar_created g) ++ next_created g)))
    with (similar_created g).
  split; [|now rewrite app_assoc].
  rewrite map_app. apply NoDup_app.
  - apply next_created_keys_NoDup.
  - apply similar_created_keys_NoDup.
  - intros k Hn Hs.
    apply in_map_iff in Hn. destruct Hn as (r & <- & Hr).
    apply in_map_iff in Hs. destruct Hs as (r' & Hk & Hr').
    apply next_created_type in Hr. apply similar_created_type in Hr'.
    unfold rel_key in Hk. inversion Hk. congruence.
Qed.

Lemma build_relationships_once_and_twice_witness :
  NoDup (map rel_key (relationships (build_relationships sample_nodes)))
  /\ relationships (build_relationships (build_relationships sample_nodes))
     = relationships (build_relationships sample_nodes)
       ++ relationships (build_relationships sample_nodes).
Proof.
  apply (build_relationships_once_and_twice sample_nodes). reflexivity.
Defined.

(** * Further properties of the pipeline *)

(** ** Loading rows and creating nodes *)

Lemma nth_error_cleaned_frame (csv : list CsvRow) (i : nat) :
  nth_error (cleaned_frame csv) i
  = option_map (fun r => clean_row (i, r)) (nth_error csv i).
Proof.
  unfold cleaned_frame. rewrite nth_error_map, nth_error_indexed.
  now destruct (nth_error csv i).
Qed.

Lemma index_str_injective (i j : nat) : index_str i = index_str j -> i = j.
Proof.
  unfold index_str. intros H.
  assert (Hu : Nat.to_uint i = Nat.to_uint j).
  { apply (f_equal NilEmpty.uint_of_string) in H.
    rewrite !NilEmpty.usu in H. now inversion H. }
  apply (f_equal Nat.of_uint) in Hu.
  now rewrite !DecimalNat.Unsigned.of_to in Hu.
Qed.

Lemma map_ID_cleaned_frame (csv : list CsvRow) :
  map row_Transaction_ID (cleaned_frame csv)
  = map index_str (seq 0 (List.length csv)).
Proof.
  apply nth_error_ext. intros i.
  rewrite !nth_error_map, nth_error_cleaned_frame, nth_error_seq.
  destruct (nth_error csv i) as [r|] eqn:E; simpl.
  - assert (Hi : (i < List.length csv)%nat)
      by (apply nth_error_Some; congruence).
    apply Nat.ltb_lt in Hi. now rewrite Hi.
  - apply nth_error_None in E.
    destruct (Nat.ltb_spec i (List.length csv)); [lia|reflexivity].
Qed.

Lemma NoDup_firstn (A : Type) (n : nat) (l : list A) :
  NoDup l -> NoDup (firstn n l).
Proof.
  intros H. rewrite <- (firstn_skipn n l) in H.
  now apply NoDup_app_remove_r in H.
Qed.

(** [load_data] keeps the rows in file order: the row at position [i] (below
    1000) carries the type, amount and instant of line [i] of the file and
    the decimal writing of [i] as its identifier. *)
Theorem load_data_row (csv : list CsvRow) (i : nat) (r : CsvRow) :
  (i < 1000)%nat ->
  nth_error csv i = Some r ->
  nth_error (load_data csv) i
  = Some (mkRow (index_str i) (csv_Transaction_Type r)
                (csv_Transaction_Amount r) (csv_instant r)).
Proof.
  intros Hi Hr. unfold load_data.
  rewrite nth_error_firstn, nth_error_cleaned_frame, Hr.
  apply Nat.ltb_lt in Hi. now rewrite Hi.
Qed.

Lemma load_data_row_witness :
  nth_error (load_data sample_csv) 1
  = Some (mkRow "1" "Transfer" 111 600).
Proof.
  apply (load_data_row sample_csv 1 (mkCsvRow "Transfer" 111 600)).
  - lia.
  - reflexivity.
Defined.

(** The identifiers [load_data] assigns are pairwise distinct, and so are the
    [Transaction_ID]s of a store loaded once from empty. *)
Theorem load_data_identifiers_distinct (csv : list CsvRow) :
  NoDup (map row_Transaction_ID (load_data csv))
  /\ NoDup (map Transaction_ID
              (nodes (create_transaction_nodes empty_graph (load_data csv)))).
Proof.
  assert (H : NoDup (map row_Transaction_ID (load_data csv))).
  { unfold load_data. rewrite <- firstn_map, map_ID_cleaned_frame.
    apply NoDup_firstn.
    apply Finite.Injective_map_NoDup; [|apply seq_NoDup].
    intros i j. apply index_str_injective. }
  split; [exact H|].
  cbn [create_transaction_nodes nodes empty_graph app].
  rewrite map_map. exact H.
Qed.

(** [create_transaction_nodes] only appends: the nodes already in the store
    keep their positions, the relationships are untouched, and the node added
    for row [k] sits at position [length (nodes g) + k] with the row's four
    properties and no risk field. *)
Theorem create_transaction_nodes_appends (g : Graph) (df : list Row) :
  relationships (create_transaction_nodes g df) = relationships g
  /\ List.length (nodes (create_transaction_nodes g df))
     = (List.length (nodes g) + List.length df)%nat
  /\ (forall i t, nth_error (nodes g) i = Some t ->
                  nth_error (nodes (create_transaction_nodes g df)) i = Some t)
  /\ (forall k r, nth_error df k = Some r ->
                  nth_error (nodes (create_transaction_nodes g df))
                            (List.length (nodes g) + k)
                  = Some (mkTransaction (row_Transaction_ID r)
                                        (row_Transaction_Type r)
                                        (row_Transaction_Amount r)
                                        (row_timestamp r)
                                        None None None None None)).
Proof.
  cbn [create_transaction_nodes nodes relationships].
  split; [reflexivity|]. split; [now rewrite length_app, length_map|].
  split.
  - intros i t Hi. rewrite nth_error_app1; [exact Hi|].
    apply nth_error_Some. congruence.
  - intros k r Hk. rewrite nth_error_app2 by lia.
    replace (List.length (nodes g) + k - List.length (nodes g))%nat with k
      by lia.
    rewrite nth_error_map, Hk. reflexivity.
Qed.

Lemma create_transaction_nodes_appends_witness :
  nth_error (nodes (create_transaction_nodes sample_nodes
                      (load_data sample_csv))) 4
  = Some (mkTransaction "1" "Transfer" 111 600 None None None None None).
Proof.
  apply (proj2 (proj2 (proj2 (create_transaction_nodes_appends sample_nodes
                                (load_data sample_csv))))
           1%nat (mkRow "1" "Transfer" 111 600)).
  reflexivity.
Defined.

(** ** Shape of the created relationships *)

Lemma In_adjacent (A : Type) (l : list A) (x y : A) :
  In (x, y) (adjacent l) ->
  exists k, nth_error l k = Some x /\ nth_error l (S k) = Some y.
Proof.
  induction l as [|a l IH]; [intros []|].
  destruct l as [|b l]; [intros []|].
  unfold adjacent. cbn [tl combine]. intros [Heq|Hin].
  - inversion Heq; subst. now exists 0%nat.
  - destruct (IH Hin) as [k [Hx Hy]]. now exists (S k).
Qed.

Lemma In_order_by_timestamp (g : Graph) (i : nat) (t : Transaction) :
  In (i, t) (order_by_timestamp (match_transactions g))
  <-> nth_error (nodes g) i = Some t.
Proof.
  rewrite <- In_match_transactions. split; intros H.
  - eapply Permutation_in; [apply order_by_timestamp_perm|exact H].
  - eapply Permutation_in;
      [apply Permutation_sym, order_by_timestamp_perm|exact H].
Qed.

Lemma In_next_created (g : Graph) (r : Relationship) :
  In r (next_created g) ->
  exists a b,
    nth_error (nodes g) (rel_start r) = Some a
    /\ nth_error (nodes g) (rel_end r) = Some b
    /\ rel_start r <> rel_end r
    /\ rel_type r = NEXT
    /\ time_diff r = Some (timestamp b - timestamp a)
    /\ timestamp a <= timestamp b.
Proof.
  rewrite next_created_adjacent, in_map_iff.
  intros ([[i a] [j b]] & <- & Hin). cbn [fst snd rel_start rel_end].
  set (chain := order_by_timestamp (match_transactions g)) in *.
  destruct (In_adjacent _ _ _ _ Hin) as (k & Hk & HSk).
  exists a, b.
  split; [eapply In_order_by_timestamp, nth_error_In, Hk|].
  split; [eapply In_order_by_timestamp, nth_error_In, HSk|].
  split.
  - intros ->.
    assert (Hnd : NoDup (map fst chain)).
    { apply (Permutation_NoDup
               (Permutation_map fst
                  (Permutation_sym (order_by_timestamp_perm _)))).
      apply NoDup_fst_match_transactions. }
    rewrite NoDup_nth_error in Hnd.
    assert (Hlt : (k < List.length (map fst chain))%nat).
    { rewrite length_map. apply nth_error_Some. congruence. }
    specialize (Hnd k (S k) Hlt).
    rewrite !nth_error_map, Hk, HSk in Hnd. specialize (Hnd eq_refl). lia.
  - split; [reflexivity|]. split; [reflexivity|].
    apply (StronglySorted_nth_error _ _ _
             (order_by_timestamp_sorted (match_transactions g))
             k (S k) (i, a) (j, b)); auto.
Qed.

Lemma In_similar_created_inv (g : Graph) (r : Relationship) :
  In r (similar_created g) ->
  exists a b,
    nth_error (nodes g) (rel_start r) = Some a
    /\ nth_error (nodes g) (rel_end r) = Some b
    /\ similar_where a b = true
    /\ rel_type r = SIMILAR
    /\ time_diff r = None.
Proof.
  unfold similar_created, similar_rows. rewrite in_map_iff.
  intros ([[i a] [j b]] & <- & Hin). cbn [fst snd rel_start rel_end].
  apply filter_In in Hin. destruct Hin as [Hprod Hw]. simpl in Hw.
  apply in_prod_iff in Hprod. destruct Hprod as [Hi Hj].
  apply In_match_transactions in Hi, Hj.
  exists a, b. auto.
Qed.

Lemma similar_where_irrefl (a : Transaction) : similar_where a a = false.
Proof.
  unfold similar_where. now rewrite String.eqb_refl.
Qed.

(** Every relationship either query creates joins two different nodes that
    exist in the store: no dangling endpoint and no self-loop. *)
Theorem created_relationships_well_formed (g : Graph) (r : Relationship) :
  In r (next_created g) \/ In r (similar_created g) ->
  (rel_start r < List.length (nodes g))%nat
  /\ (rel_end r < List.length (nodes g))%nat
  /\ rel_start r <> rel_end r.
Proof.
  intros [H|H].
  - destruct (In_next_created g r H) as (a & b & Ha & Hb & Hne & _).
    repeat split; try (apply nth_error_Some; congruence). exact Hne.
  - destruct (In_similar_created_inv g r H) as (a & b & Ha & Hb & Hw & _).
    repeat split; try (apply nth_error_Some; congruence).
    intros Heq. rewrite Heq, Hb in Ha. inversion Ha; subst b.
    now rewrite similar_where_irrefl in Hw.
Qed.

Lemma created_relationships_well_formed_witness :
  (1 < List.length (nodes sample_nodes))%nat /\ 1%nat <> 0%nat.
Proof.
  destruct (created_relationships_well_formed sample_nodes
              (mkRel 1 SIMILAR 0 None)) as (H1 & _ & H3).
  - right. vm_compute. left. reflexivity.
  - split; [exact H1|exact H3].
Defined.

(** On a store with at most one node the two edge-construction steps create
    nothing. *)
Theorem build_relationships_small_store (g : Graph) :
  (List.length (nodes g) <= 1)%nat ->
  next_created g = [] /\ similar_created g = []
  /\ build_relationships g = g.
Proof.
  intros Hn.
  assert (HN : next_created g = []).
  { apply length_zero_iff_nil.
    rewrite next_created_adjacent, length_map, length_adjacent.
    rewrite (Permutation_length (order_by_timestamp_perm _)).
    rewrite length_match_transactions. lia. }
  assert (HS : similar_created g = []).
  { destruct (similar_created g) as [|r l] eqn:E; [reflexivity|].
    assert (Hr : In r (similar_created g)) by (rewrite E; now left).
    destruct (In_similar_created_inv g r Hr) as (a & b & Ha & Hb & Hw & _).
    assert (rel_start r < List.length (nodes g))%nat
      by (apply nth_error_Some; congruence).
    assert (rel_end r < List.length (nodes g))%nat
      by (apply nth_error_Some; congruence).
    assert (rel_start r = rel_end r) by lia.
    replace (rel_end r) with (rel_start r) in Hb by assumption.
    rewrite Hb in Ha. inversion Ha; subst b.
    now rewrite similar_where_irrefl in Hw. }
  split; [exact HN|]. split; [exact HS|].
  unfold build_relationships, create_similar_relationships,
    create_next_relationships. cbn [nodes relationships].
  change (similar_created (mkGraph (nodes g) (relationships g ++ next_created g)))
    with (similar_created g).
  rewrite HN, HS, !app_nil_r. now destruct g.
Qed.

Lemma build_relationships_small_store_witness :
  build_relationships empty_graph = empty_graph.
Proof.
  apply (build_relationships_small_store empty_graph). simpl. lia.
Defined.

(** ** Direction of SIMILAR *)

(** Type equality and the time window are symmetric: once a SIMILAR
    relationship a -> b exists, the reverse one exists as soon as the amount
    test also holds measured against b's amount. *)
Theorem similar_reverse (g : Graph) (i j : nat) (a b : Transaction) :
  nth_error (nodes g) i = Some a ->
  nth_error (nodes g) j = Some b ->
  In (mkRel i SIMILAR j None) (similar_created g) ->
  (In (mkRel j SIMILAR i None) (similar_created g)
   <-> PrimFloat.ltb
         (PrimFloat.abs (Transaction_Amount b - Transaction_Amount a)%float)
         (0.1 * Transaction_Amount b)%float = true).
Proof.
  intros Ha Hb Hab.
  rewrite (In_similar_created g i j a b Ha Hb) in Hab.
  rewrite (In_similar_created g j i b a Hb Ha).
  apply similar_where_true in Hab. destruct Hab as (Hid & Hty & _ & Hts).
  rewrite similar_where_true. split.
  - intros (_ & _ & H & _). exact H.
  - intros H. repeat split; try congruence.
    rewrite <- Z.abs_opp.
    replace (- (timestamp b - timestamp a)) with (timestamp a - timestamp b)
      by ring.
    exact Hts.
Qed.

Lemma similar_reverse_witness :
  In (mkRel 0 SIMILAR 1 None) (similar_created sample_nodes)
  <-> PrimFloat.ltb (PrimFloat.abs (100 - 111)%float) (0.1 * 100)%float = true.
Proof.
  apply (similar_reverse sample_nodes 1 0
           (mkTransaction "1" "Transfer" 111 600 None None None None None)
           (mkTransaction "0" "Transfer" 100 0 None None None None None)
           eq_refl eq_refl).
  vm_compute. left. reflexivity.
Defined.

Lemma abs_not_below_zero (x : float) :
  PrimFloat.ltb (PrimFloat.abs x) 0%float = false.
Proof.
  rewrite FloatAxioms.ltb_spec, FloatAxioms.abs_spec.
  change (Prim2SF 0%float) with (S754_zero false).
  destruct (Prim2SF x) as [s|s| |s m e]; reflexivity.
Qed.

(** A transaction whose amount is 0 never gets an outgoing SIMILAR
    relationship: the tolerance is 0 and the comparison is strict, so not
    even another amount of 0 passes. *)
Theorem zero_amount_no_outgoing_similar (g : Graph) (i : nat)
        (a : Transaction) (r : Relationship) :
  nth_error (nodes g) i = Some a ->
  Transaction_Amount a = 0%float ->
  In r (similar_created g) ->
  rel_start r <> i.
Proof.
  intros Ha Hz Hr Heq.
  destruct (In_similar_created_inv g r Hr) as (a' & b & Ha' & _ & Hw & _).
  rewrite Heq, Ha in Ha'. inversion Ha'; subst a'.
  apply similar_where_true in Hw. destruct Hw as (_ & _ & Hlt & _).
  rewrite Hz in Hlt.
  change (0.1 * 0)%float with 0%float in Hlt.
  rewrite abs_not_below_zero in Hlt. discriminate Hlt.
Qed.

(** ** Out-degree in SIMILAR *)

Section ProductCount.
Variable W : Transaction -> Transaction -> bool.
Variable i : nat.

Let from_i (p : (nat * Transaction) * (nat * Transaction)) : bool :=
  Nat.eqb (fst (fst p)) i && W (snd (fst p)) (snd (snd p)).

Lemma count_rows_other (x : nat * Transaction) (l2 : list (nat * Transaction)) :
  fst x <> i ->
  filter from_i (map (fun y => (x, y)) l2) = [].
Proof.
  intros Hx. apply Nat.eqb_neq in Hx.
  induction l2 as [|y l2 IH]; [reflexivity|].
  cbn [map filter]. unfold from_i at 1. cbn [fst snd].
  rewrite Hx. exact IH.
Qed.

Lemma count_rows_none (l1 l2 : list (nat * Transaction)) :
  (forall x, In x l1 -> fst x <> i) ->
  filter from_i (list_prod l1 l2) = [].
Proof.
  intros H. induction l1 as [|x l1 IH]; [reflexivity|].
  cbn [list_prod]. rewrite filter_app, IH by (intros y Hy; apply H; now right).
  rewrite app_nil_r. apply count_rows_other. apply H. now left.
Qed.

Lemma count_rows_one (l1 l2 : list (nat * Transaction)) (a : Transaction) :
  NoDup (map fst l1) ->
  In (i, a) l1 ->
  List.length (filter from_i (list_prod l1 l2))
  = List.length (filter (fun y => W a (snd y)) l2).
Proof.
  induction l1 as [|x l1 IH]; intros Hnd Hin; [destruct Hin|].
  cbn [map] in Hnd. apply NoDup_cons_iff in Hnd. destruct Hnd as [Hx Hnd].
  cbn [list_prod]. rewrite filter_app, length_app.
  destruct Hin as [->|Hin].
  - rewrite count_rows_none.
    + cbn [List.length]. rewrite Nat.add_0_r.
      rewrite filter_map_swap, length_map.
      f_equal. apply filter_ext. intros y. unfold from_i. cbn [fst snd].
      now rewrite Nat.eqb_refl.
    + intros y Hy Heq. apply Hx. cbn [fst]. rewrite <- Heq.
      now apply in_map.
  - rewrite (IH Hnd Hin), count_rows_other; [reflexivity|].
    intros Heq. apply Hx. rewrite Heq.
    change i with (fst (i, a)). now apply in_map.
Qed.
End ProductCount.

Lemma length_filter_filter (A : Type) (f g : A -> bool) (l : list A) :
  List.length (filter f (filter g l))
  = List.length (filter (fun x => f x && g x) l).
Proof.
  induction l as [|x l IH]; [reflexivity|].
  cbn [filter]. destruct (g x); cbn [filter].
  - rewrite andb_true_r. destruct (f x); cbn [List.length]; now rewrite IH.
  - now rewrite andb_false_r.
Qed.

Lemma length_filter_snd_match_transactions (g : Graph)
      (f : Transaction -> bool) :
  List.length (filter (fun y => f (snd y)) (match_transactions g))
  = List.length (filter f (nodes g)).
Proof.
  unfold match_transactions. generalize 0%nat.
  induction (nodes g) as [|t l IH]; intros s; [reflexivity|].
  cbn [List.length seq combine filter snd].
  destruct (f t); cbn [List.length]; now rewrite IH.
Qed.

(** The SIMILAR partners of the node at position [i]. *)
Lemma similar_created_from (g : Graph) (i : nat) :
  List.length
    (filter (fun r => Nat.eqb (rel_start r) i
                      && RelType_eqb (rel_type r) SIMILAR)
            (similar_created g))
  = match nth_error (nodes g) i with
    | Some a => List.length (filter (similar_where a) (nodes g))
    | None => 0%nat
    end.
Proof.
  unfold similar_created, similar_rows.
  rewrite filter_map_swap, length_map. cbn [rel_start rel_type RelType_eqb].
  rewrite length_filter_filter.
  rewrite (filter_ext _
             (fun p : (nat * Transaction) * (nat * Transaction) =>
                Nat.eqb (fst (fst p)) i
                && similar_where (snd (fst p)) (snd (snd p)))).
  2:{ intros p. now rewrite andb_true_r. }
  destruct (nth_error (nodes g) i) as [a|] eqn:E.
  - rewrite (count_rows_one similar_where i _ _ a).
    + apply length_filter_snd_match_transactions.
    + apply NoDup_fst_match_transactions.
    + now apply In_match_transactions.
  - rewrite count_rows_none; [reflexivity|].
    intros [k t] Hin Heq. cbn [fst] in Heq. subst k.
    apply In_match_transactions in Hin. congruence.
Qed.

Lemma next_created_not_similar (g : Graph) (i : nat) :
  filter (fun r => Nat.eqb (rel_start r) i
                   && RelType_eqb (rel_type r) SIMILAR)
         (next_created g) = [].
Proof.
  assert (H : forall r, In r (next_created g) -> rel_type r = NEXT)
    by apply next_created_type.
  induction (next_created g) as [|r l IH]; [reflexivity|].
  cbn [filter]. rewrite (H r) by now left.
  cbn [RelType_eqb]. rewrite andb_false_r.
  apply IH. intros r' Hr'. apply H. now right.
Qed.

Lemma sim_count_build (g : Graph) (i : nat) :
  sim_count (build_relationships g) i
  = sim_count g i
    + Z.of_nat match nth_error (nodes g) i with
               | Some a => List.length (filter (similar_where a) (nodes g))
               | None => 0%nat
               end.
Proof.
  unfold sim_count, build_relationships, create_similar_relationships,
    create_next_relationships. cbn [relationships nodes].
  change (similar_created (mkGraph (nodes g) (relationships g ++ next_created g)))
    with (similar_created g).
  rewrite !filter_app, next_created_not_similar, app_nil_r, length_app.
  rewrite similar_created_from. lia.
Qed.

Lemma length_filter_lt (A : Type) (f : A -> bool) (l : list A) (x : A) :
  In x l -> f x = false ->
  (List.length (filter f l) < List.length l)%nat.
Proof.
  induction l as [|y l IH]; intros Hin Hf; [destruct Hin|].
  cbn [filter List.length].
  pose proof (filter_length_le f l) as Hle.
  destruct Hin as [->|Hin].
  - rewrite Hf. lia.
  - specialize (IH Hin Hf). destruct (f y); cbn [List.length]; lia.
Qed.

(** After the edge construction, the number of SIMILAR relationships leaving
    a node is what it was before plus the number of nodes of the store that
    pass the [WHERE] clause against it; that number is at most the number of
    other nodes. *)
Theorem similar_out_degree (g : Graph) (i : nat) (a : Transaction) :
  nth_error (nodes g) i = Some a ->
  sim_count (build_relationships g) i
  = sim_count g i
    + Z.of_nat (List.length (filter (similar_where a) (nodes g)))
  /\ (List.length (filter (similar_where a) (nodes g))
      <= List.length (nodes g) - 1)%nat.
Proof.
  intros Ha. split.
  - now rewrite sim_count_build, Ha.
  - assert (H : (List.length (filter (similar_where a) (nodes g))
                 < List.length (nodes g))%nat).
    { apply (length_filter_lt _ _ _ a).
      - eapply nth_error_In, Ha.
      - apply similar_where_irrefl. }
    lia.
Qed.

Lemma similar_out_degree_witness :
  sim_count (build_relationships sample_nodes) 1 = 0 + 1.
Proof.
  apply (similar_out_degree sample_nodes 1
           (mkTransaction "1" "Transfer" 111 600 None None None None None)
           eq_refl).
Defined.

(** Running the edge construction a second time doubles every node's count of
    outgoing SIMILAR relationships, which is what the scorer reads. *)
Theorem rebuild_doubles_sim_count (g : Graph) (i : nat) :
  relationships g = [] ->
  sim_count (build_relationships (build_relationships g)) i
  = 2 * sim_count (build_relationships g) i.
Proof.
  intros Hg.
  rewrite (sim_count_build (build_relationships g)).
  change (nodes (build_relationships g)) with (nodes g).
  rewrite (sim_count_build g).
  assert (H0 : sim_count g i = 0) by (unfold sim_count; now rewrite Hg).
  rewrite H0. lia.
Qed.

Lemma rebuild_doubles_sim_count_witness :
  sim_count (build_relationships (build_relationships sample_nodes)) 1
  = 2 * sim_count (build_relationships sample_nodes) 1.
Proof.
  apply (rebuild_doubles_sim_count sample_nodes 1). reflexivity.
Defined.

(** ** Re-running and re-parameterising the scorer *)

Lemma amounts_fmea_query g avg_amt std_amt threshold :
  map Transaction_Amount (nodes (fmea_query g avg_amt std_amt threshold))
  = map Transaction_Amount (nodes g).
Proof.
  apply nth_error_ext. intros i.
  rewrite !nth_error_map, nth_error_fmea_query.
  now destruct (nth_error (nodes g) i).
Qed.

Lemma fmea_query_overwrites g a s th a' s' th' :
  fmea_query (fmea_query g a s th) a' s' th' = fmea_query g a' s' th'.
Proof.
  unfold fmea_query at 1 3. f_equal.
  apply nth_error_ext. intros i.
  rewrite !nth_error_map, !nth_error_match_transactions,
    nth_error_fmea_query.
  destruct (nth_error (nodes g) i); reflexivity.
Qed.

(** The scorer overwrites: a run on an already scored store gives what a
    single run with the new threshold gives on the original store.  In
    particular a second run with the same threshold changes nothing. *)
Theorem run_fmea_overwrites (g g1 : Graph) (th1 th2 : Z) :
  run_fmea g th1 = Ok g1 ->
  run_fmea g1 th2 = run_fmea g th2
  /\ run_fmea g1 th1 = Ok g1.
Proof.
  rewrite run_fmea_returns. intros H. inversion H as [Hg1]. clear H.
  assert (Hany : forall th,
             run_fmea
               (fmea_query g (cypher_avg (map Transaction_Amount (nodes g)))
                  (cypher_stDev (map Transaction_Amount (nodes g))) th1) th
             = run_fmea g th).
  { intros th. rewrite !run_fmea_returns, amounts_fmea_query.
    now rewrite fmea_query_overwrites. }
  split; [apply Hany|]. rewrite Hany. apply run_fmea_returns.
Qed.

Lemma run_fmea_overwrites_witness :
  run_fmea scored_sample 100 = run_fmea sample_graph 100
  /\ run_fmea scored_sample default_threshold = Ok scored_sample.
Proof.
  apply (run_fmea_overwrites sample_graph scored_sample default_threshold 100).
  reflexivity.
Defined.

(** The scorer writes risk fields only: relationships, the number of nodes
    and every node's identifier, type, amount and timestamp are as before. *)
Theorem run_fmea_preserves_data (g g' : Graph) (threshold : Z) :
  run_fmea g threshold = Ok g' ->
  relationships g' = relationships g
  /\ List.length (nodes g') = List.length (nodes g)
  /\ forall i t',
       nth_error (nodes g') i = Some t' ->
       exists t,
         nth_error (nodes g) i = Some t
         /\ Transaction_ID t' = Transaction_ID t
         /\ Transaction_Type t' = Transaction_Type t
         /\ Transaction_Amount t' = Transaction_Amount t
         /\ timestamp t' = timestamp t.
Proof.
  intros Hrun. split; [|split].
  - rewrite run_fmea_returns in Hrun. now inversion Hrun.
  - rewrite run_fmea_returns in Hrun. inversion Hrun.
    cbn [fmea_query nodes]. rewrite length_map.
    apply length_match_transactions.
  - intros i t' Hn.
    destruct (scored_node _ _ _ _ _ Hrun Hn) as (t & a & s & Ht & ->).
    exists t. repeat split; [exact Ht].
Qed.

Lemma run_fmea_preserves_data_witness :
  relationships scored_sample = relationships sample_graph
  /\ List.length (nodes scored_sample) = 3%nat.
Proof.
  destruct (run_fmea_preserves_data sample_graph scored_sample
              default_threshold eq_refl) as (Hr & Hl & _).
  split; [exact Hr|exact Hl].
Defined.

(** Raising the threshold never changes severity, occurrence or RPN and never
    turns a Normal node into a High Risk one. *)
Theorem threshold_monotone (g g1 g2 : Graph) (th1 th2 : Z) (i : nat)
        (t1 t2 : Transaction) :
  th1 <= th2 ->
  run_fmea g th1 = Ok g1 ->
  run_fmea g th2 = Ok g2 ->
  nth_error (nodes g1) i = Some t1 ->
  nth_error (nodes g2) i = Some t2 ->
  severity t2 = severity t1
  /\ occurrence t2 = occurrence t1
  /\ RPN t2 = RPN t1
  /\ (failure_mode t2 = Some "High Risk"%string ->
      failure_mode t1 = Some "High Risk"%string).
Proof.
  intros Hle H1 H2 Hn1 Hn2.
  rewrite run_fmea_returns in H1, H2. inversion H1; inversion H2; subst.
  rewrite nth_error_fmea_query in Hn1, Hn2.
  destruct (nth_error (nodes g) i) as [t|]; [|discriminate].
  cbn [option_map] in Hn1, Hn2. inversion Hn1; inversion Hn2; subst.
  repeat split. cbn [set_risk failure_mode]. unfold failure_mode_case.
  match goal with
  | |- context [?r >=? th2] =>
      destruct (Z.geb_spec r th2); destruct (Z.geb_spec r th1)
  end; try reflexivity; try lia. intros Hd; discriminate Hd.
Qed.

Lemma threshold_monotone_witness :
  exists t1 t2,
    nth_error (nodes scored_sample) 1 = Some t1
    /\ RPN t2 = RPN t1
    /\ (failure_mode t2 = Some "High Risk"%string ->
        failure_mode t1 = Some "High Risk"%string).
Proof.
  pose proof (threshold_monotone sample_graph scored_sample
                (fmea_query sample_graph
                   (cypher_avg (map Transaction_Amount (nodes sample_graph)))
                   (cypher_stDev (map Transaction_Amount (nodes sample_graph)))
                   40)
                default_threshold 40 1) as H.
  destruct (nth_error (nodes scored_sample) 1) as [t1|] eqn:E1;
    [|vm_compute in E1; discriminate E1].
  destruct (nth_error
              (nodes (fmea_query sample_graph
                   (cypher_avg (map Transaction_Amount (nodes sample_graph)))
                   (cypher_stDev (map Transaction_Amount (nodes sample_graph)))
                   40)) 1) as [t2|] eqn:E2;
    [|vm_compute in E2; discriminate E2].
  destruct (H t1 t2) as (_ & _ & Hr & Hm);
    try reflexivity; [unfold default_threshold; lia|].
  exists t1, t2. auto.
Defined.



(** With the default threshold a node is Normal exactly when it is in the
    lowest severity tier and has no outgoing SIMILAR relationship; one
    SIMILAR relationship, or a higher tier, is enough for High Risk. *)
Theorem default_threshold_normal (g g' : Graph) (i : nat) (t' : Transaction) :
  run_fmea g default_threshold = Ok g' ->
  nth_error (nodes g') i = Some t' ->
  (failure_mode t' = Some "Normal"%string
   <-> severity t' = Some 3 /\ sim_count g i = 0)
  /\ (failure_mode t' = Some "High Risk"%string
      <-> severity t' <> Some 3 \/ 1 <= sim_count g i).
Proof.
  intros Hrun Hn.
  destruct (scored_node _ _ _ _ _ Hrun Hn) as (t & a & s & _ & ->).
  cbn [set_risk failure_mode severity].
  unfold failure_mode_case, default_threshold.
  pose proof (severity_case_values (Transaction_Amount t) a s) as Hs.
  pose proof (sim_count_nonneg g i) as Hc.
  rewrite occurrence_case_min.
  set (sev := severity_case (Transaction_Amount t) a s) in *.
  clearbody sev.
  destruct (Z.geb_spec (sev * Z.min (sim_count g i + 1) 10 * 5) 30)
    as [Hge|Hlt].
  - split; split.
    + intros H; discriminate H.
    + intros [H1 H2]. inversion H1; subst sev. rewrite H2 in Hge. lia.
    + intros _. destruct Hs as [ -> | [ -> | -> ] ];
        [right; lia|left; discriminate|left; discriminate].
    + reflexivity.
  - assert (Hsev : sev = 3) by (destruct Hs as [ -> | [ -> | -> ] ]; lia).
    subst sev. split; split.
    + intros _. split; [reflexivity|lia].
    + reflexivity.
    + intros H; discriminate H.
    + intros [H|H]; [congruence|lia].
Qed.

Lemma default_threshold_normal_witness :
  exists t',
    nth_error (nodes scored_sample) 0 = Some t'
    /\ (failure_mode t' = Some "Normal"%string
        <-> severity t' = Some 3 /\ sim_count sample_graph 0 = 0).
Proof.
  pose proof (default_threshold_normal sample_graph scored_sample 0%nat) as H.
  destruct (nth_error (nodes scored_sample) 0) as [t'|] eqn:E;
    [|vm_compute in E; discriminate E].
  destruct (H t' eq_refl eq_refl) as [H1 _].
  exists t'. split; [reflexivity|exact H1].
Defined.

Lemma zero_amount_no_outgoing_similar_witness :
  rel_start (mkRel 2 SIMILAR 3 None) <> 0%nat.
Proof.
  apply (zero_amount_no_outgoing_similar zero_nodes 0
           (mkTransaction "0" "Credit" 0 0 None None None None None)
           (mkRel 2 SIMILAR 3 None) eq_refl eq_refl).
  vm_compute. left. reflexivity.
Defined.

(** ** From the batch to the occurrence score *)

(** Built once on a store without relationships and then scored, a node's
    occurrence is one more than the number of nodes that pass the SIMILAR
    test against it, capped at 10; it never exceeds the number of nodes. *)
Theorem pipeline_occurrence (g g' : Graph) (threshold : Z) (i : nat)
        (a t' : Transaction) :
  relationships g = [] ->
  nth_error (nodes g) i = Some a ->
  run_fmea (build_relationships g) threshold = Ok g' ->
  nth_error (nodes g') i = Some t' ->
  occurrence t'
  = Some (Z.min
            (Z.of_nat (List.length (filter (similar_where a) (nodes g))) + 1)
            10)
  /\ exists o, occurrence t' = Some o
               /\ o <= Z.of_nat (List.length (nodes g)).
Proof.
  intros Hg Ha Hrun Hn.
  destruct (scored_node _ _ _ _ _ Hrun Hn) as (t & av & sd & _ & ->).
  cbn [set_risk occurrence]. rewrite occurrence_case_min, sim_count_build, Ha.
  assert (H0 : sim_count g i = 0) by (unfold sim_count; now rewrite Hg).
  rewrite H0, Z.add_0_l.
  split; [reflexivity|]. eexists. split; [reflexivity|].
  assert (H : (List.length (filter (similar_where a) (nodes g))
               < List.length (nodes g))%nat).
  { apply (length_filter_lt _ _ _ a).
    - eapply nth_error_In, Ha.
    - apply similar_where_irrefl. }
  lia.
Qed.

Lemma pipeline_occurrence_witness :
  exists t',
    nth_error (nodes scored_sample) 1 = Some t'
    /\ occurrence t' = Some (Z.min (1 + 1) 10).
Proof.
  pose proof (pipeline_occurrence sample_nodes scored_sample default_threshold
                1%nat
                (mkTransaction "1" "Transfer" 111 600
                               None None None None None)) as H.
  destruct (nth_error (nodes scored_sample) 1) as [t'|] eqn:E;
    [|vm_compute in E; discriminate E].
  destruct (H t' eq_refl eq_refl eq_refl eq_refl) as [Ho _].
  exists t'. split; [reflexivity|exact Ho].
Defined.

(** ** The report on any store *)

Lemma rpn_values_nil (l : list Transaction) :
  rpn_values l = [] <-> Forall (fun t => RPN t = None) l.
Proof.
  induction l as [|t l IH]; simpl.
  - split; [constructor|reflexivity].
  - destruct (RPN t) as [v|] eqn:E.
    + split; [discriminate|]. intros H. inversion H; congruence.
    + rewrite IH. split; intros H.
      * now constructor.
      * now inversion H.
Qed.

(** [get_summary_report] always returns a record, also on an empty store;
    its total is the number of nodes and its high-risk count lies between 0
    and the total. *)
Theorem summary_always_a_record (g : Graph) :
  exists r,
    get_summary_report g = Some r
    /\ total r = Z.of_nat (List.length (nodes g))
    /\ 0 <= highRisk r <= total r.
Proof.
  eexists. split; [reflexivity|].
  cbn [total highRisk]. split; [reflexivity|].
  rewrite Zsum_high_risk.
  pose proof (filter_length_le (has_mode "High Risk") (nodes g)). lia.
Qed.

(** Before any scoring run the report has no statistics: on a store whose
    nodes carry no RPN (an empty store, or one just built) the three RPN
    aggregates are null; on a store just built from a file the total is the
    number of rows loaded and the high-risk count is 0. *)
Theorem summary_before_scoring :
  (forall g,
      Forall (fun t => RPN t = None) (nodes g) ->
      exists r,
        get_summary_report g = Some r
        /\ avgRPN r = None /\ minRPN r = None /\ maxRPN r = None)
  /\ forall csv,
       get_summary_report (build_graph empty_graph csv)
       = Some (mkSummary (Z.of_nat (Nat.min 1000 (List.length csv))) 0
                         None None None).
Proof.
  split.
  - intros g H. apply rpn_values_nil in H.
    eexists. split; [reflexivity|].
    cbn [avgRPN minRPN maxRPN]. rewrite H. auto.
  - intros csv.
    unfold get_summary_report, summary_query, single. cbn [hd_error].
    change (nodes (build_graph empty_graph csv))
      with (map node_of_row (load_data csv)).
    assert (Hr : rpn_values (map node_of_row (load_data csv)) = []).
    { induction (load_data csv) as [|r l IH]; [reflexivity|exact IH]. }
    assert (Hh : Zsum (map high_risk_case (map node_of_row (load_data csv)))
                 = 0).
    { induction (load_data csv) as [|r l IH]; [reflexivity|].
      change (Zsum (map high_risk_case (map node_of_row (r :: l))))
        with (0 + Zsum (map high_risk_case (map node_of_row l))).
      now rewrite IH. }
    rewrite Hr, Hh, length_map. cbn [avg_int min_int max_int].
    do 3 f_equal.
    unfold load_data, cleaned_frame.
    rewrite length_firstn, length_map, length_combine, length_seq.
    now rewrite Nat.min_id.
Qed.

Lemma summary_before_scoring_witness :
  exists r,
    get_summary_report sample_graph = Some r
    /\ avgRPN r = None /\ minRPN r = None /\ maxRPN r = None.
Proof.
  apply (proj1 summary_before_scoring sample_graph).
  vm_compute. repeat constructor.
Defined.

(** [main] of the report never prints "No summary data found.".  When no
    node carries an RPN it prints the header, the total and the high-risk
    count and then ends with a [TypeError]; when some node carries one it
    prints all six lines and raises nothing. *)
Theorem summary_main_outcome (g : Graph) :
  ~ In (Line "No summary data found.") (fst (summary_main g))
  /\ (Forall (fun t => RPN t = None) (nodes g) ->
      summary_main g
      = ([ Line "FMEA Summary Report:";
           LineInt "Total Transactions: " (Z.of_nat (List.length (nodes g)));
           LineInt "High Risk Transactions: "
                   (Z.of_nat (List.length
                                (filter (has_mode "High Risk") (nodes g)))) ],
         Some "TypeError"%string))
  /\ (Exists (fun t => RPN t <> None) (nodes g) ->
      snd (summary_main g) = None
      /\ List.length (fst (summary_main g)) = 6%nat).
Proof.
  unfold summary_main, get_summary_report, summary_query, single.
  cbn [hd_error avgRPN minRPN maxRPN total highRisk].
  rewrite Zsum_high_risk.
  destruct (rpn_values (nodes g)) as [|x l] eqn:E.
  - cbn [avg_int min_int max_int option_map print_fixed2 fst snd].
    split; [|split].
    + intros [H|[H|[H|[]]]]; discriminate H.
    + reflexivity.
    + intros Hex. apply rpn_values_nil in E.
      rewrite Forall_forall in E. apply Exists_exists in Hex.
      destruct Hex as (t & Hin & Hne). now specialize (E t Hin).
  - cbn [avg_int min_int max_int option_map print_fixed2 fst snd].
    split; [|split].
    + intros [H|[H|[H|[H|[H|[H|[]]]]]]]; discriminate H.
    + intros H. apply rpn_values_nil in H. congruence.
    + intros _. split; reflexivity.
Qed.

Lemma summary_main_outcome_witness :
  summary_main sample_graph
  = ([ Line "FMEA Summary Report:";
       LineInt "Total Transactions: " 3;
       LineInt "High Risk Transactions: " 0 ],
     Some "TypeError"%string).
Proof.
  apply (proj1 (proj2 (summary_main_outcome sample_graph))).
  vm_compute. repeat constructor.
Defined.

(** ** Scoring, then reporting *)

Lemma fold_min_ge (lo : Z) (l : list Z) :
  forall x, lo <= x -> Forall (fun y => lo <= y) l ->
            lo <= fold_left Z.min l x.
Proof.
  induction l as [|y l IH]; intros x Hx Hl; simpl; [exact Hx|].
  inversion Hl; subst. apply IH; [lia|assumption].
Qed.

Lemma fold_max_le (hi : Z) (l : list Z) :
  forall x, x <= hi -> Forall (fun y => y <= hi) l ->
            fold_left Z.max l x <= hi.
Proof.
  induction l as [|y l IH]; intros x Hx Hl; simpl; [exact Hx|].
  inversion Hl; subst. apply IH; [lia|assumption].
Qed.

Lemma set_risk_rpn_range t c a s th :
  0 <= c ->
  exists v, RPN (set_risk t c a s th) = Some v /\ 15 <= v <= 500
            /\ failure_mode (set_risk t c a s th)
               = Some (failure_mode_case v th).
Proof.
  intros Hc. eexists. split; [reflexivity|]. split; [|reflexivity].
  pose proof (severity_case_values (Transaction_Amount t) a s) as Hs.
  rewrite occurrence_case_min.
  destruct Hs as [ -> | [ -> | -> ] ]; lia.
Qed.

Lemma rpn_values_fmea_query g a s th :
  List.length (rpn_values (nodes (fmea_query g a s th)))
  = List.length (nodes g)
  /\ Forall (fun v => 15 <= v <= 500)
            (rpn_values (nodes (fmea_query g a s th))).
Proof.
  unfold fmea_query. cbn [nodes].
  rewrite <- length_match_transactions.
  induction (match_transactions g) as [|it l [IHl IHf]]; [split; constructor|].
  cbn [map rpn_values].
  destruct (set_risk_rpn_range (snd it) (sim_count g (fst it)) a s th
              (sim_count_nonneg g (fst it))) as (v & Hv & Hr & _).
  rewrite Hv. cbn [List.length]. split; [now rewrite IHl|].
  constructor; assumption.
Qed.

Lemma high_risk_fmea_query g a s th :
  (th <= 15 ->
   filter (has_mode "High Risk") (nodes (fmea_query g a s th))
   = nodes (fmea_query g a s th))
  /\ (500 < th ->
      filter (has_mode "High Risk") (nodes (fmea_query g a s th)) = []).
Proof.
  unfold fmea_query. cbn [nodes].
  induction (match_transactions g) as [|it l [IH1 IH2]]; [split; reflexivity|].
  cbn [map filter].
  destruct (set_risk_rpn_range (snd it) (sim_count g (fst it)) a s th
              (sim_count_nonneg g (fst it))) as (v & _ & Hr & Hm).
  assert (Hhm : has_mode "High Risk"
                  (set_risk (snd it) (sim_count g (fst it)) a s th)
                = (v >=? th)).
  { unfold has_mode. rewrite Hm. unfold failure_mode_case.
    now destruct (v >=? th). }
  rewrite Hhm. split; intros Hth.
  - destruct (Z.geb_spec v th); [|lia]. f_equal. now apply IH1.
  - destruct (Z.geb_spec v th); [lia|]. now apply IH2.
Qed.

(** Reporting on a store that was just scored: the total is the number of
    nodes, the three RPN aggregates exist and satisfy
    15 <= minRPN <= avgRPN <= maxRPN <= 500, and the high-risk count is the
    total when the threshold is at most 15 and 0 when it is above 500. *)
Theorem report_after_scoring (g g' : Graph) (threshold : Z) :
  nodes g <> [] ->
  run_fmea g threshold = Ok g' ->
  exists r mn av mx,
    get_summary_report g' = Some r
    /\ total r = Z.of_nat (List.length (nodes g))
    /\ minRPN r = Some mn /\ avgRPN r = Some av /\ maxRPN r = Some mx
    /\ 15 <= mn /\ (inject_Z mn <= av)%Q /\ (av <= inject_Z mx)%Q
    /\ mx <= 500
    /\ (threshold <= 15 -> highRisk r = total r)
    /\ (500 < threshold -> highRisk r = 0).
Proof.
  intros Hne Hrun. rewrite run_fmea_returns in Hrun.
  inversion Hrun as [Hg']. clear Hrun.
  set (a := cypher_avg (map Transaction_Amount (nodes g))).
  set (s := cypher_stDev (map Transaction_Amount (nodes g))).
  destruct (rpn_values_fmea_query g a s threshold) as [Hlen Hall].
  destruct (high_risk_fmea_query g a s threshold) as [Hlow Hhigh].
  assert (Hn : List.length (nodes (fmea_query g a s threshold))
               = List.length (nodes g)).
  { cbn [fmea_query nodes]. rewrite length_map.
    apply length_match_transactions. }
  unfold get_summary_report, summary_query, single. cbn [hd_error].
  destruct (rpn_values (nodes (fmea_query g a s threshold))) as [|x l] eqn:E.
  { destruct (nodes g); [congruence|discriminate Hlen]. }
  inversion Hall as [|? ? Hx Hl]; subst.
  destruct (fold_min_lower l x) as [Hmx Hml].
  destruct (fold_max_upper l x) as [HMx HMl].
  pose proof (fold_min_ge 15 l x (proj1 Hx)
                (Forall_impl _ (fun y H => proj1 H) Hl)) as Hmin.
  pose proof (fold_max_le 500 l x (proj2 Hx)
                (Forall_impl _ (fun y H => proj2 H) Hl)) as Hmax.
  set (mn := fold_left Z.min l x) in *.
  set (mx := fold_left Z.max l x) in *.
  assert (Hbetween : Forall (fun y => mn <= y <= mx) (x :: l)).
  { constructor; [lia|].
    rewrite Forall_forall in *. intros y Hy.
    specialize (Hml y Hy). specialize (HMl y Hy). cbv beta in *. lia. }
  pose proof (Zsum_between mn mx (x :: l) Hbetween) as Hsum.
  assert (Hpos : Z.pos (Pos.of_nat (List.length (x :: l)))
                 = Z.of_nat (List.length (x :: l))).
  { rewrite <- positive_nat_Z. f_equal. apply Nat2Pos.id. discriminate. }
  eexists; exists mn; eexists; exists mx.
  split; [reflexivity|].
  cbn [total highRisk minRPN avgRPN maxRPN avg_int min_int max_int].
  rewrite Hn. split; [reflexivity|]. do 3 (split; [reflexivity|]).
  split; [exact Hmin|]. split.
  { unfold Qle. cbn [Qnum Qden inject_Z]. rewrite Hpos. lia. }
  split.
  { unfold Qle. cbn [Qnum Qden inject_Z]. rewrite Hpos. lia. }
  split; [exact Hmax|].
  rewrite Zsum_high_risk. split; intros Hth.
  - rewrite (Hlow Hth), Hn. reflexivity.
  - rewrite (Hhigh Hth). reflexivity.
Qed.

Lemma report_after_scoring_witness :
  exists r mn av mx,
    get_summary_report scored_sample = Some r
    /\ minRPN r = Some mn /\ avgRPN r = Some av /\ maxRPN r = Some mx
    /\ 15 <= mn /\ (inject_Z mn <= av)%Q /\ (av <= inject_Z mx)%Q
    /\ mx <= 500.
Proof.
  destruct (report_after_scoring sample_graph scored_sample default_threshold)
    as (r & mn & av & mx & Hr & _ & H1 & H2 & H3 & H4 & H5 & H6 & H7 & _).
  - vm_compute. discriminate.
  - reflexivity.
  - exists r, mn, av, mx. repeat split; assumption.
Defined.

(** ** The time span of the chain *)

Lemma last_cons_default (A : Type) (l : list A) :
  forall x y : A, last (y :: l) x = last l y.
Proof.
  induction l as [|z l IH]; intros x y; [reflexivity|].
  change (last (y :: z :: l) x) with (last (z :: l) x).
  now rewrite (IH x z), (IH y z).
Qed.

Lemma last_In_cons (A : Type) (l : list A) :
  forall x : A, In (last l x) (x :: l).
Proof.
  induction l as [|y l IH]; intros x; [now left|].
  right. rewrite last_cons_default. apply IH.
Qed.

Lemma adjacent_span (l : list (nat * Transaction)) :
  forall x,
    Zsum (map (fun p => inSeconds (snd (fst p)) (snd (snd p)))
              (adjacent (x :: l)))
    = timestamp (snd (last l x)) - timestamp (snd x).
Proof.
  induction l as [|y l IH]; intros x.
  - cbn. lia.
  - change (adjacent (x :: y :: l)) with ((x, y) :: adjacent (y :: l)).
    cbn [map Zsum fold_right fst snd].
    fold (Zsum (map (fun p => inSeconds (snd (fst p)) (snd (snd p)))
                    (adjacent (y :: l)))).
    rewrite IH, last_cons_default. unfold inSeconds. lia.
Qed.

Lemma sorted_below_last (l : list (nat * Transaction)) :
  forall x,
    StronglySorted timestamp_le (x :: l) ->
    Forall (fun z => timestamp (snd z) <= timestamp (snd (last l x)))
           (x :: l).
Proof.
  induction l as [|y l IH]; intros x Hs.
  - constructor; [cbn; lia|constructor].
  - apply StronglySorted_inv in Hs. destruct Hs as [Hs Hx].
    specialize (IH y Hs). rewrite last_cons_default.
    constructor; [|exact IH].
    inversion Hx as [|? ? Hxy _]; subst. inversion IH as [|? ? Hy _]; subst.
    unfold timestamp_le in Hxy. lia.
Qed.

(** The [time_diff] values of the NEXT relationships add up to the time span
    of the store: the latest timestamp minus the earliest. *)
Theorem next_time_diff_total (g : Graph) :
  nodes g <> [] ->
  exists first last_ : Transaction,
    In first (nodes g) /\ In last_ (nodes g)
    /\ (forall t, In t (nodes g) ->
                  timestamp first <= timestamp t <= timestamp last_)
    /\ Zsum (map (fun r => match time_diff r with
                           | Some d => d
                           | None => 0
                           end)
                 (next_created g))
       = timestamp last_ - timestamp first.
Proof.
  intros Hne. rewrite next_created_adjacent, map_map. cbn [time_diff].
  pose proof (order_by_timestamp_sorted (match_transactions g)) as Hs.
  assert (Hin : forall i t,
             In (i, t) (order_by_timestamp (match_transactions g))
             <-> nth_error (nodes g) i = Some t)
    by apply In_order_by_timestamp.
  destruct (order_by_timestamp (match_transactions g)) as [|x l] eqn:E.
  { destruct (nodes g) as [|t ns]; [congruence|].
    exfalso. apply (proj2 (Hin 0%nat t) eq_refl). }
  rewrite adjacent_span.
  pose proof (sorted_below_last l x Hs) as Hup.
  apply StronglySorted_inv in Hs. destruct Hs as [_ Hlow].
  pose proof (last_In_cons _ l x) as Hlast.
  exists (snd x), (snd (last l x)).
  split.
  { apply (nth_error_In _ (fst x)). apply Hin.
    rewrite <- surjective_pairing. now left. }
  split.
  { apply (nth_error_In _ (fst (last l x))). apply Hin.
    rewrite <- surjective_pairing. exact Hlast. }
  split; [|reflexivity].
  intros t Ht. apply In_nth_error in Ht. destruct Ht as [i Hi].
  apply Hin in Hi. rewrite Forall_forall in Hup, Hlow.
  specialize (Hup _ Hi). cbn [snd] in Hup. split; [|exact Hup].
  destruct Hi as [Hx|Hi]; [rewrite Hx; cbn; lia|].
  specialize (Hlow _ Hi). exact Hlow.
Qed.

Lemma next_time_diff_total_witness :
  exists first last_ : Transaction,
    In first (nodes sample_nodes) /\ In last_ (nodes sample_nodes)
    /\ Zsum (map (fun r => match time_diff r with
                           | Some d => d
                           | None => 0
                           end)
                 (next_created sample_nodes))
       = timestamp last_ - timestamp first.
Proof.
  destruct (next_time_diff_total sample_nodes)
    as (f & l & Hf & Hl & _ & Hsum).
  - vm_compute. discriminate.
  - exists f, l. auto.
Defined.

(** ** Dictionaries *)

Lemma dict_mem_In (V : Type) (k : string) (d : dict V) :
  dict_mem k d = true <-> In k (map fst d).
Proof.
  induction d as [|[k' v] d IH]; simpl.
  - split; [discriminate|intros []].
  - rewrite orb_true_iff, IH, String.eqb_eq. reflexivity.
Qed.

Lemma dict_mem_not_In (V : Type) (k : string) (d : dict V) :
  dict_mem k d = false <-> ~ In k (map fst d).
Proof.
  rewrite <- dict_mem_In. destruct (dict_mem k d); split; congruence.
Qed.

Lemma dict_set_fresh (V : Type) (k : string) (v : V) (d : dict V) :
  dict_mem k d = false -> dict_set k v d = d ++ [(k, v)].
Proof.
  induction d as [|[k' v'] d IH]; simpl; [reflexivity|].
  intros H. apply orb_false_iff in H. destruct H as [H1 H2].
  now rewrite H1, IH.
Qed.

Lemma dict_add_missing_cases (V : Type) (k : string) (v : V) (d : dict V) :
  (In k (map fst d) /\ dict_add_missing k v d = d)
  \/ (~ In k (map fst d) /\ dict_add_missing k v d = d ++ [(k, v)]).
Proof.
  unfold dict_add_missing. destruct (dict_mem k d) eqn:E.
  - left. split; [now apply dict_mem_In|reflexivity].
  - right. split; [now apply dict_mem_not_In|now apply dict_set_fresh].
Qed.

Lemma dict_add_missing_keys (V : Type) (k : string) (v : V) (d : dict V) :
  NoDup (map fst d) ->
  NoDup (map fst (dict_add_missing k v d))
  /\ (forall k', In k' (map fst (dict_add_missing k v d))
                 <-> k' = k \/ In k' (map fst d)).
Proof.
  intros Hnd.
  destruct (dict_add_missing_cases V k v d) as [[Hin ->]|[Hnin ->]].
  - split; [exact Hnd|]. intros k'. split; [auto|].
    intros [->|H]; assumption.
  - rewrite map_app. cbn [map fst]. split.
    + apply NoDup_app; [exact Hnd|repeat constructor; intros []|].
      intros a Ha [<-|[]]. contradiction.
    + intros k'. rewrite in_app_iff. cbn [In]. intuition congruence.
Qed.

Lemma dict_add_missing_items (V : Type) (k : string) (v : V) (d : dict V) :
  forall k' v',
    In (k', v') (dict_add_missing k v d) ->
    In (k', v') d \/ (k' = k /\ v' = v).
Proof.
  intros k' v'.
  destruct (dict_add_missing_cases V k v d) as [[_ ->]|[_ ->]]; [auto|].
  rewrite in_app_iff. cbn [In].
  intros [H|[H|[]]]; [auto|]. inversion H; auto.
Qed.

(** ** The NetworkX graph of a view *)

Lemma add_nodes_fresh (NA EA V : Type)
      (step : DiGraph NA EA -> string * V -> DiGraph NA EA)
      (attr_of : V -> option NA) :
  (forall G n,
      ~ In (fst n) (map fst (g_node G)) ->
      g_node (step G n) = g_node G ++ [(fst n, attr_of (snd n))]) ->
  forall (d : dict V) (G : DiGraph NA EA),
    NoDup (map fst d) ->
    (forall k, In k (map fst d) -> ~ In k (map fst (g_node G))) ->
    g_node (fold_left step d G)
    = g_node G ++ map (fun n => (fst n, attr_of (snd n))) d.
Proof.
  intros Hstep d. induction d as [|n d IH]; intros G Hnd Hfresh.
  - cbn. now rewrite app_nil_r.
  - cbn [fold_left map]. cbn [map] in Hnd.
    apply NoDup_cons_iff in Hnd. destruct Hnd as [Hn Hnd].
    rewrite IH.
    + rewrite Hstep by (apply Hfresh; now left).
      now rewrite <- app_assoc.
    + exact Hnd.
    + intros k Hk. rewrite Hstep by (apply Hfresh; now left).
      rewrite map_app, in_app_iff. cbn [map fst In].
      intros [H|[H|[]]].
      * apply (Hfresh k); [now right|exact H].
      * subst k. contradiction.
Qed.

Lemma add_node_fresh (NA EA : Type) (G : DiGraph NA EA) (n : string * NA) :
  ~ In (fst n) (map fst (g_node G)) ->
  g_node (add_node G (fst n) (snd n))
  = g_node G ++ [(fst n, Some (snd n))].
Proof.
  intros H. cbn [add_node g_node].
  apply dict_set_fresh. now apply dict_mem_not_In.
Qed.

Lemma add_bare_node_fresh (NA EA : Type) (G : DiGraph NA EA)
      (n : string * unit) :
  ~ In (fst n) (map fst (g_node G)) ->
  g_node (add_bare_node G (fst n)) = g_node G ++ [(fst n, @None NA)].
Proof.
  intros H. cbn [add_bare_node g_node].
  destruct (dict_add_missing_cases _ (fst n) (@None NA) (g_node G))
    as [[Hin _]|[_ ->]]; [contradiction|reflexivity].
Qed.

Lemma add_edges_keep_nodes (NA EA : Type)
      (edges : list (string * string * EA)) :
  forall G : DiGraph NA EA,
    (forall u v l, In (u, v, l) edges ->
                   In u (map fst (g_node G)) /\ In v (map fst (g_node G))) ->
    g_node (fold_left
              (fun G e => add_edge G (fst (fst e)) (snd (fst e)) (snd e))
              edges G)
    = g_node G.
Proof.
  induction edges as [|[[u v] l] edges IH]; intros G H; [reflexivity|].
  cbn [fold_left fst snd].
  assert (Hstep : g_node (add_edge G u v l) = g_node G).
  { destruct (H u v l (or_introl eq_refl)) as [Hu Hv].
    cbn [add_edge g_node].
    destruct (dict_add_missing_cases _ u (@None NA) (g_node G))
      as [[_ ->]|[Hn _]]; [|contradiction].
    destruct (dict_add_missing_cases _ v (@None NA) (g_node G))
      as [[_ ->]|[Hn _]]; [reflexivity|contradiction]. }
  rewrite IH, Hstep; [reflexivity|].
  intros u' v' l' Hin. rewrite Hstep. apply (H u' v' l'). now right.
Qed.

(** ** The FMEA view *)

Lemma In_outgoing (g : Graph) (i : nat) (r : Relationship) (t2 : Transaction) :
  In (r, t2) (outgoing g i)
  <-> In r (relationships g) /\ rel_start r = i
      /\ nth_error (nodes g) (rel_end r) = Some t2.
Proof.
  unfold outgoing. rewrite in_flat_map. split.
  - intros (r' & Hr' & Hin).
    destruct (Nat.eqb_spec (rel_start r') i) as [E|E]; [|destruct Hin].
    destruct (nth_error (nodes g) (rel_end r')) as [t|] eqn:Et;
      [|destruct Hin].
    destruct Hin as [H|[]]. inversion H; subst. auto.
  - intros (Hr & Hs & Ht). exists r. split; [exact Hr|].
    rewrite Hs, Nat.eqb_refl, Ht. now left.
Qed.

Lemma fmea_rows_of_store (g : Graph) :
  Forall (record_of_store g) (fmea_rows g).
Proof.
  apply Forall_forall. intros row Hrow.
  unfold fmea_rows in Hrow. apply in_flat_map in Hrow.
  destruct Hrow as ([i t] & Hit & Hin). cbn [fst snd] in Hin.
  apply In_match_transactions in Hit.
  assert (Ht : In t (nodes g)) by (eapply nth_error_In, Hit).
  destruct (outgoing g i) as [|o out] eqn:E.
  - destruct Hin as [<-|[]]. split; [|exact I].
    exists t. auto.
  - apply in_map_iff in Hin. destruct Hin as ([r t2] & <- & Hrt).
    rewrite <- E in Hrt. apply In_outgoing in Hrt.
    destruct Hrt as (_ & _ & Ht2). cbn [fst snd]. split.
    + exists t. auto.
    + cbn [rec_target]. exists t2.
      split; [eapply nth_error_In, Ht2|]. auto.
Qed.

Lemma fmea_rows_cover (g : Graph) (t : Transaction) :
  In t (nodes g) ->
  exists row, In row (fmea_rows g) /\ rec_source row = Transaction_ID t.
Proof.
  intros Ht. apply In_nth_error in Ht. destruct Ht as [i Hi].
  apply In_match_transactions in Hi.
  destruct (outgoing g i) as [|o out] eqn:E.
  - eexists. split.
    + unfold fmea_rows. apply in_flat_map. exists (i, t).
      split; [exact Hi|]. cbn [fst snd]. rewrite E. now left.
    + reflexivity.
  - eexists. split.
    + unfold fmea_rows. apply in_flat_map. exists (i, t).
      split; [exact Hi|]. cbn [fst snd]. rewrite E.
      cbn [map]. now left.
    + reflexivity.
Qed.

Lemma collect_fmea_record_inv (g : Graph) st record :
  record_of_store g record ->
  NoDup (map fst (fst st)) ->
  dict_of_store g (fst st) ->
  edges_closed (fst st) (snd st) ->
  let st' := collect_fmea_record st record in
  NoDup (map fst (fst st'))
  /\ dict_of_store g (fst st')
  /\ edges_closed (fst st') (snd st')
  /\ (forall k, In k (map fst (fst st)) -> In k (map fst (fst st')))
  /\ In (rec_source record) (map fst (fst st')).
Proof.
  intros [Hsrc Htgt] Hnd Hds Hec. destruct st as [d edges].
  cbn [fst snd] in *. unfold collect_fmea_record. cbn [fst snd].
  set (a1 := mkNodeAttr (rec_source_rpn record) (rec_source_mode record)).
  set (d1 := dict_add_missing (rec_source record) a1 d).
  destruct (dict_add_missing_keys _ (rec_source record) a1 d Hnd)
    as [Hnd1 Hk1]. fold d1 in Hnd1, Hk1.
  assert (Hds1 : dict_of_store g d1).
  { intros k a Hin. apply dict_add_missing_items in Hin.
    destruct Hin as [Hin|[-> ->]]; [now apply Hds|].
    destruct Hsrc as (t & Ht & Hid & Hat). exists t. auto. }
  destruct (rec_target record) as [tgt|] eqn:Et; cbn [fst snd].
  - set (a2 := mkNodeAttr (rec_target_rpn record) (rec_target_mode record)).
    destruct (dict_add_missing_keys _ tgt a2 d1 Hnd1) as [Hnd2 Hk2].
    split; [exact Hnd2|]. split.
    { intros k a Hin. apply dict_add_missing_items in Hin.
      destruct Hin as [Hin|[-> ->]]; [now apply Hds1|].
      destruct Htgt as (t2 & Ht2 & Hid & Hat). exists t2. auto. }
    split.
    { intros u v l Hin. apply in_app_or in Hin.
      destruct Hin as [Hin|[Hin|[]]].
      - destruct (Hec u v l Hin) as [Hu Hv].
        split; apply Hk2; right; apply Hk1; now right.
      - inversion Hin; subst. split; apply Hk2.
        + right. apply Hk1. now left.
        + now left. }
    split.
    { intros k Hk. apply Hk2. right. apply Hk1. now right. }
    apply Hk2. right. apply Hk1. now left.
  - split; [exact Hnd1|]. split; [exact Hds1|]. split.
    { intros u v l Hin. destruct (Hec u v l Hin) as [Hu Hv].
      split; apply Hk1; now right. }
    split.
    { intros k Hk. apply Hk1. now right. }
    apply Hk1. now left.
Qed.

Lemma collect_fmea_inv (g : Graph) (rs : list FmeaRecord) :
  forall st,
    Forall (record_of_store g) rs ->
    NoDup (map fst (fst st)) ->
    dict_of_store g (fst st) ->
    edges_closed (fst st) (snd st) ->
    let st' := fold_left collect_fmea_record rs st in
    NoDup (map fst (fst st'))
    /\ dict_of_store g (fst st')
    /\ edges_closed (fst st') (snd st')
    /\ (forall k, In k (map fst (fst st)) -> In k (map fst (fst st')))
    /\ (forall row, In row rs -> In (rec_source row) (map fst (fst st'))).
Proof.
  induction rs as [|record rs IH]; intros st Hrs Hnd Hds Hec.
  - cbn [fold_left]. cbv zeta.
    split; [exact Hnd|]. split; [exact Hds|]. split; [exact Hec|].
    split; [auto|]. intros row [].
  - inversion Hrs as [|? ? Hr Hrs']; subst.
    destruct (collect_fmea_record_inv g st record Hr Hnd Hds Hec)
      as (Hnd1 & Hds1 & Hec1 & Hmono1 & Hsrc1).
    destruct (IH _ Hrs' Hnd1 Hds1 Hec1) as (Hnd2 & Hds2 & Hec2 & Hmono2 & Hsrc2).
    cbn [fold_left]. cbv zeta.
    split; [exact Hnd2|]. split; [exact Hds2|]. split; [exact Hec2|].
    split; [auto|].
    intros row [<-|Hin]; auto.
Qed.

Lemma fmea_DiGraph_nodes (g : Graph) :
  exists d : dict NodeAttr,
    g_node (fmea_DiGraph g) = map (fun n => (fst n, Some (snd n))) d
    /\ NoDup (map fst d)
    /\ dict_of_store g d
    /\ forall t, In t (nodes g) -> In (Transaction_ID t) (map fst d).
Proof.
  unfold fmea_DiGraph, collect_fmea.
  destruct (collect_fmea_inv g (fmea_rows g) ([], [])
              (fmea_rows_of_store g) (NoDup_nil _))
    as (Hnd & Hds & Hec & _ & Hsrc).
  { intros k a []. }
  { intros u v l []. }
  destruct (fold_left collect_fmea_record (fmea_rows g) ([], []))
    as [d edges]. cbn [fst snd] in *.
  exists d.
  assert (Hn : g_node (fold_left (fun G na => add_node G (fst na) (snd na))
                                 d (@empty_DiGraph NodeAttr (option string)))
               = map (fun n => (fst n, Some (snd n))) d).
  { rewrite (add_nodes_fresh _ _ _ _ (@Some NodeAttr)).
    - reflexivity.
    - intros G n. apply add_node_fresh.
    - exact Hnd.
    - intros k _ []. }
  split.
  - rewrite add_edges_keep_nodes; [exact Hn|].
    intros u v l Hin. rewrite Hn, map_map. cbn [fst].
    apply (Hec u v l Hin).
  - split; [exact Hnd|]. split; [exact Hds|].
    intros t Ht. destruct (fmea_rows_cover g t Ht) as (row & Hrow & <-).
    now apply Hsrc.
Qed.

Lemma fmea_markers_all (d : dict NodeAttr) :
  exists ms,
    fmea_markers (map (fun n => (fst n, Some (snd n))) d) = Ok ms
    /\ map (fun m => fst (fst m)) ms = map fst d
    /\ map (fun m => snd (fst m)) ms
       = map (fun n => match attr_failure_mode (snd n) with
                       | Some m =>
                           if String.eqb m "High Risk" then "red"%string
                           else "blue"%string
                       | None => "blue"%string
                       end) d.
Proof.
  induction d as [|n d (ms & Hms & Hk & Hc)].
  - exists []. auto.
  - cbn [map fmea_markers fmea_marker fst snd]. rewrite Hms.
    eexists. split; [reflexivity|]. cbn [map fst snd].
    now rewrite Hk, Hc.
Qed.

Lemma NoDup_map_injective (A B : Type) (f : A -> B) (l : list A) :
  NoDup (map f l) ->
  forall x y, In x l -> In y l -> f x = f y -> x = y.
Proof.
  induction l as [|a l IH]; intros Hnd x y Hx Hy Hf; [destruct Hx|].
  cbn [map] in Hnd. apply NoDup_cons_iff in Hnd. destruct Hnd as [Ha Hnd].
  destruct Hx as [->|Hx]; destruct Hy as [->|Hy].
  - reflexivity.
  - exfalso. apply Ha. rewrite Hf. now apply in_map.
  - exfalso. apply Ha. rewrite <- Hf. now apply in_map.
  - now apply IH.
Qed.

Lemma length_filter_Permutation (A : Type) (p : A -> bool) (l l' : list A) :
  Permutation l l' ->
  List.length (filter p l) = List.length (filter p l').
Proof.
  induction 1 as [|x l l' _ IH|x y l|l l' l'' _ IH1 _ IH2]; cbn [filter].
  - reflexivity.
  - destruct (p x); cbn [List.length]; now rewrite IH.
  - destruct (p x), (p y); reflexivity.
  - now rewrite IH1.
Qed.

(** [visualize_graph] never fails on a missing attribute, whatever the store
    holds, and draws one marker per distinct [Transaction_ID]: nodes that
    share an identifier share a marker, so there are at most as many markers
    as nodes. *)
Theorem visualize_graph_markers (pos : string -> float * float) (g : Graph) :
  exists fig,
    visualize_graph pos g = Ok fig
    /\ NoDup (map fst (g_node (fmea_DiGraph g)))
    /\ (forall k, In k (map fst (g_node (fmea_DiGraph g)))
                  <-> exists t, In t (nodes g) /\ Transaction_ID t = k)
    /\ List.length (node_color fig) = List.length (g_node (fmea_DiGraph g))
    /\ List.length (node_text fig) = List.length (node_color fig)
    /\ List.length (node_x fig) = List.length (node_color fig)
    /\ List.length (node_y fig) = List.length (node_color fig)
    /\ (List.length (node_color fig) <= List.length (nodes g))%nat.
Proof.
  destruct (fmea_DiGraph_nodes g) as (d & Hn & Hnd & Hds & Hcov).
  destruct (fmea_markers_all d) as (ms & Hms & Hk & Hc).
  unfold visualize_graph. rewrite Hn, Hms.
  eexists. split; [reflexivity|].
  cbn [node_color node_text node_x node_y].
  rewrite !length_map, map_map. cbn [fst].
  assert (Hlen : List.length ms = List.length d).
  { rewrite <- (length_map (fun m => fst (fst m)) ms), Hk.
    apply length_map. }
  split; [exact Hnd|]. split.
  { intros k. split.
    - intros Hin. apply in_map_iff in Hin.
      destruct Hin as ([k' a] & <- & Hin).
      destruct (Hds k' a Hin) as (t & Ht & Hid & _). exists t. auto.
    - intros (t & Ht & <-). now apply Hcov. }
  split; [exact Hlen|]. do 3 (split; [reflexivity|]).
  rewrite Hlen, <- (length_map fst d),
    <- (length_map Transaction_ID (nodes g)).
  apply NoDup_incl_length; [exact Hnd|].
  intros k Hin. apply in_map_iff in Hin.
  destruct Hin as ([k' a] & <- & Hin).
  destruct (Hds k' a Hin) as (t & Ht & <- & _). cbn [fst]. now apply in_map.
Qed.

Lemma red_markers_count (l : list Transaction) :
  List.length
    (filter (String.eqb "red")
       (map (fun t => match failure_mode t with
                      | Some m =>
                          if String.eqb m "High Risk" then "red"%string
                          else "blue"%string
                      | None => "blue"%string
                      end) l))
  = List.length (filter (has_mode "High Risk") l).
Proof.
  induction l as [|t l IH]; [reflexivity|].
  cbn [map filter]. unfold has_mode at 1.
  destruct (failure_mode t) as [m|].
  - destruct (String.eqb m "High Risk").
    + change (String.eqb "red" "red") with true. cbn [List.length].
      now rewrite IH.
    + change (String.eqb "red" "blue") with false. exact IH.
  - change (String.eqb "red" "blue") with false. exact IH.
Qed.

(** When the identifiers of the store are distinct, [visualize_graph] draws
    exactly one marker per node, and the number of red markers is the
    [highRisk] count of the summary report. *)
Theorem visualize_graph_red_count (pos : string -> float * float)
        (g : Graph) :
  NoDup (map Transaction_ID (nodes g)) ->
  exists fig r,
    visualize_graph pos g = Ok fig
    /\ get_summary_report g = Some r
    /\ List.length (node_color fig) = List.length (nodes g)
    /\ Z.of_nat (List.length (filter (String.eqb "red") (node_color fig)))
       = highRisk r
    /\ forall c, In c (node_color fig) -> c = "red"%string \/ c = "blue"%string.
Proof.
  intros Hids.
  destruct (fmea_DiGraph_nodes g) as (d & Hn & Hnd & Hds & Hcov).
  destruct (fmea_markers_all d) as (ms & Hms & Hk & Hc).
  unfold visualize_graph. rewrite Hn, Hms.
  eexists; eexists. split; [reflexivity|]. split; [reflexivity|].
  cbn [node_color highRisk]. rewrite Hc, Zsum_high_risk.
  assert (Hperm : Permutation
                    (map (fun t => (Transaction_ID t, node_attr t)) (nodes g))
                    d).
  { apply NoDup_Permutation.
    - apply (NoDup_map_inv fst). now rewrite map_map.
    - apply (NoDup_map_inv fst). exact Hnd.
    - intros [k a]. split.
      + intros Hin. apply in_map_iff in Hin.
        destruct Hin as (t & Heq & Ht). inversion Heq; subst k a.
        pose proof (Hcov t Ht) as Hkey. apply in_map_iff in Hkey.
        destruct Hkey as ([k' a'] & Hk' & Hin'). cbn [fst] in Hk'. subst k'.
        destruct (Hds _ _ Hin') as (t' & Ht' & Hid & ->).
        assert (t' = t)
          by (apply (NoDup_map_injective _ _ Transaction_ID (nodes g));
              assumption).
        now subst t'.
      + intros Hin. destruct (Hds _ _ Hin) as (t & Ht & <- & ->).
        apply in_map_iff. exists t. auto. }
  split.
  { rewrite length_map, <- (Permutation_length Hperm). apply length_map. }
  split.
  { f_equal.
    rewrite <- (length_filter_Permutation _ _ _ _
                  (Permutation_map
                     (fun n : string * NodeAttr =>
                        match attr_failure_mode (snd n) with
                        | Some m =>
                            if String.eqb m "High Risk" then "red"%string
                            else "blue"%string
                        | None => "blue"%string
                        end) Hperm)).
    rewrite map_map. cbn [snd node_attr attr_failure_mode].
    apply red_markers_count. }
  intros c Hin. apply in_map_iff in Hin. destruct Hin as (n & <- & _).
  destruct (attr_failure_mode (snd n)) as [m|]; [|now right].
  destruct (String.eqb m "High Risk"); auto.
Qed.

Lemma visualize_graph_red_count_witness :
  exists fig r,
    visualize_graph origin_layout scored_sample = Ok fig
    /\ get_summary_report scored_sample = Some r
    /\ List.length (node_color fig) = 3%nat
    /\ Z.of_nat (List.length (filter (String.eqb "red") (node_color fig)))
       = highRisk r.
Proof.
  destruct (visualize_graph_red_count origin_layout scored_sample)
    as (fig & r & Hf & Hr & Hl & Hc & _).
  - vm_compute. repeat constructor; simpl; intuition discriminate.
  - exists fig, r. auto.
Defined.

(** ** The view of the original graph *)

Lemma type_name_listed (ty : RelType) :
  existsb (String.eqb (type_name ty)) ["NEXT"; "SIMILAR"]%string = true.
Proof. destruct ty; reflexivity. Qed.

Lemma In_transaction_rows (g : Graph) (row : EdgeRecord) :
  In row (transaction_rows g)
  <-> exists r a b,
        In r (relationships g)
        /\ nth_error (nodes g) (rel_start r) = Some a
        /\ nth_error (nodes g) (rel_end r) = Some b
        /\ row = mkEdgeRecord (Transaction_ID a) (type_name (rel_type r))
                              (Transaction_ID b).
Proof.
  unfold transaction_rows. rewrite in_flat_map. split.
  - intros ([i a] & Hia & Hin). cbn [fst snd] in Hin.
    apply in_flat_map in Hin. destruct Hin as ([r b] & Hrb & Hin).
    cbn [fst snd] in Hin. rewrite type_name_listed in Hin.
    destruct Hin as [<-|[]].
    apply In_outgoing in Hrb. destruct Hrb as (Hr & <- & Hb).
    apply In_match_transactions in Hia.
    exists r, a, b. auto.
  - intros (r & a & b & Hr & Ha & Hb & ->).
    exists (rel_start r, a). split; [now apply In_match_transactions|].
    cbn [fst snd]. apply in_flat_map. exists (r, b).
    split; [apply In_outgoing; auto|].
    cbn [fst snd]. rewrite type_name_listed. now left.
Qed.

Lemma collect_edge_records_inv (rs : list EdgeRecord) :
  forall st,
    NoDup (map fst (fst st)) ->
    edges_closed (fst st) (snd st) ->
    let st' := fold_left collect_edge_record rs st in
    NoDup (map fst (fst st'))
    /\ edges_closed (fst st') (snd st')
    /\ forall k,
         In k (map fst (fst st'))
         <-> In k (map fst (fst st))
             \/ exists row, In row rs
                            /\ (er_source row = k \/ er_target row = k).
Proof.
  induction rs as [|record rs IH]; intros [d edges] Hnd Hec.
  - cbn [fold_left]. cbv zeta. split; [exact Hnd|]. split; [exact Hec|].
    intros k. split; [auto|]. intros [H|(row & [] & _)]; exact H.
  - cbv zeta. cbn [fst snd] in Hnd, Hec.
    change (fold_left collect_edge_record (record :: rs) (d, edges))
      with (fold_left collect_edge_record rs
              (dict_add_missing (er_target record) tt
                 (dict_add_missing (er_source record) tt d),
               edges ++ [(er_source record, er_target record,
                          er_rel_type record)])).
    cbn [fst snd].
    destruct (dict_add_missing_keys _ (er_source record) tt d Hnd)
      as [Hnd1 Hk1].
    destruct (dict_add_missing_keys _ (er_target record) tt _ Hnd1)
      as [Hnd2 Hk2].
    set (d2 := dict_add_missing (er_target record) tt
                 (dict_add_missing (er_source record) tt d)) in *.
    assert (Hec2 : edges_closed d2
                     (edges ++ [(er_source record, er_target record,
                                 er_rel_type record)])).
    { intros u v l Hin. apply in_app_or in Hin.
      destruct Hin as [Hin|[Hin|[]]].
      - destruct (Hec u v l Hin) as [Hu Hv].
        split; apply Hk2; right; apply Hk1; now right.
      - inversion Hin; subst. split; apply Hk2.
        + right. apply Hk1. now left.
        + now left. }
    destruct (IH (d2, edges ++ [(er_source record, er_target record,
                                 er_rel_type record)]) Hnd2 Hec2)
      as (Hnd3 & Hec3 & Hk3).
    split; [exact Hnd3|]. split; [exact Hec3|].
    intros k. rewrite Hk3. cbn [fst]. rewrite Hk2, Hk1. split.
    + intros [[H|[H|H]]|(row & Hrow & H)].
      * right. exists record. split; [now left|]. right. congruence.
      * right. exists record. split; [now left|]. left. congruence.
      * now left.
      * right. exists row. split; [now right|exact H].
    + intros [H|(row & [<-|Hrow] & H)].
      * left. right. now right.
      * left. destruct H as [H|H]; [right; left|left]; congruence.
      * right. exists row. auto.
Qed.

Lemma transactions_DiGraph_nodes (g : Graph) :
  NoDup (map fst (g_node (transactions_DiGraph g)))
  /\ forall k,
       In k (map fst (g_node (transactions_DiGraph g)))
       <-> exists row, In row (transaction_rows g)
                       /\ (er_source row = k \/ er_target row = k).
Proof.
  unfold transactions_DiGraph.
  destruct (collect_edge_records_inv (transaction_rows g) ([], [])
              (NoDup_nil _)) as (Hnd & Hec & Hk).
  { intros u v l []. }
  destruct (fold_left collect_edge_record (transaction_rows g) ([], []))
    as [d edges]. cbn [fst snd] in *.
  assert (Hn : g_node (fold_left (fun G n => add_bare_node G (fst n))
                                 d (@empty_DiGraph unit string))
               = map (fun n => (fst n, @None unit)) d).
  { rewrite (add_nodes_fresh _ _ _ _ (fun _ : unit => @None unit)).
    - reflexivity.
    - intros G n. apply add_bare_node_fresh.
    - exact Hnd.
    - intros k _ []. }
  assert (Hg : g_node
                 (fold_left
                    (fun G e => add_edge G (fst (fst e)) (snd (fst e)) (snd e))
                    edges
                    (fold_left (fun G n => add_bare_node G (fst n))
                               d (@empty_DiGraph unit string)))
               = map (fun n => (fst n, @None unit)) d).
  { rewrite add_edges_keep_nodes; [exact Hn|].
    intros u v l Hin. rewrite Hn, map_map. cbn [fst].
    apply (Hec u v l Hin). }
  rewrite Hg, map_map. cbn [fst]. split; [exact Hnd|].
  intros k. rewrite Hk. split.
  - intros [[]|H]; exact H.
  - intros H. now right.
Qed.

(** [visualize_transactions] draws a marker for an identifier exactly when
    some relationship of the store starts or ends at a node carrying it, one
    marker per identifier; a store without relationships gives an empty
    figure, however many nodes it has. *)
Theorem visualize_transactions_markers (pos : string -> float * float)
        (g : Graph) :
  NoDup (map fst (g_node (transactions_DiGraph g)))
  /\ (forall k,
         In k (map fst (g_node (transactions_DiGraph g)))
         <-> exists r a b,
               In r (relationships g)
               /\ nth_error (nodes g) (rel_start r) = Some a
               /\ nth_error (nodes g) (rel_end r) = Some b
               /\ (Transaction_ID a = k \/ Transaction_ID b = k))
  /\ marker_text (visualize_transactions pos g)
     = map (fun k => String.append "Transaction ID: " k)
           (map fst (g_node (transactions_DiGraph g)))
  /\ List.length (marker_x (visualize_transactions pos g))
     = List.length (g_node (transactions_DiGraph g))
  /\ List.length (marker_y (visualize_transactions pos g))
     = List.length (g_node (transactions_DiGraph g))
  /\ (relationships g = [] ->
      visualize_transactions pos g
      = mkTransactionsFigure [] [] [] [] [] [] []).
Proof.
  destruct (transactions_DiGraph_nodes g) as [Hnd Hk].
  split; [exact Hnd|]. split.
  { intros k. rewrite Hk. split.
    - intros (row & Hrow & H). apply In_transaction_rows in Hrow.
      destruct Hrow as (r & a & b & Hr & Ha & Hb & ->).
      exists r, a, b. auto.
    - intros (r & a & b & Hr & Ha & Hb & H).
      eexists. split.
      + apply In_transaction_rows. exists r, a, b. eauto.
      + exact H. }
  cbn [visualize_transactions marker_text marker_x marker_y].
  split; [now rewrite map_map|]. split; [apply length_map|].
  split; [apply length_map|].
  intros Hrels.
  assert (Hrows : transaction_rows g = []).
  { destruct (transaction_rows g) as [|row rows] eqn:E; [reflexivity|].
    assert (Hin : In row (transaction_rows g)) by (rewrite E; now left).
    apply In_transaction_rows in Hin.
    destruct Hin as (r & _ & _ & Hr & _). rewrite Hrels in Hr.
    destruct Hr. }
  unfold visualize_transactions, transactions_DiGraph.
  rewrite Hrows. reflexivity.
Qed.

Lemma next_created_covers (g : Graph) (i : nat) (t : Transaction) :
  (2 <= List.length (nodes g))%nat ->
  nth_error (nodes g) i = Some t ->
  exists r, In r (next_created g) /\ (rel_start r = i \/ rel_end r = i).
Proof.
  intros Hn Hi. rewrite next_created_adjacent.
  set (chain := order_by_timestamp (match_transactions g)).
  assert (Hlen : List.length chain = List.length (nodes g)).
  { unfold chain. rewrite (Permutation_length (order_by_timestamp_perm _)).
    apply length_match_transactions. }
  assert (Hin : In (i, t) chain) by now apply In_order_by_timestamp.
  apply In_nth_error in Hin. destruct Hin as [k Hk].
  assert (Hklt : (k < List.length chain)%nat)
    by (apply nth_error_Some; congruence).
  destruct (nth_error chain (S k)) as [y|] eqn:Ey.
  - eexists. split.
    + apply in_map_iff. exists ((i, t), y). split; [reflexivity|].
      eapply nth_error_In, (nth_error_adjacent _ chain k); eassumption.
    + left. reflexivity.
  - apply nth_error_None in Ey.
    destruct k as [|k']; [lia|].
    destruct (nth_error chain k') as [x|] eqn:Ex;
      [|apply nth_error_None in Ex; lia].
    eexists. split.
    + apply in_map_iff. exists (x, (i, t)). split; [reflexivity|].
      eapply nth_error_In, (nth_error_adjacent _ chain k'); eassumption.
    + right. reflexivity.
Qed.

(** After the edge construction on a store of at least two nodes the view of
    the original graph has a marker for the identifier of every node: the
    NEXT chain leaves no node isolated.  On a store with a single node and no
    relationship the figure stays empty. *)
Theorem visualize_transactions_after_build (pos : string -> float * float)
        (g : Graph) :
  ((2 <= List.length (nodes g))%nat ->
   forall t, In t (nodes g) ->
             In (Transaction_ID t)
                (map fst (g_node (transactions_DiGraph
                                    (build_relationships g)))))
  /\ ((List.length (nodes g) <= 1)%nat ->
      relationships g = [] ->
      visualize_transactions pos (build_relationships g)
      = mkTransactionsFigure [] [] [] [] [] [] []).
Proof.
  split.
  - intros Hn t Ht. apply In_nth_error in Ht. destruct Ht as [i Hi].
    destruct (next_created_covers g i t Hn Hi) as (r & Hr & Hends).
    destruct (In_next_created g r Hr) as (a & b & Ha & Hb & _).
    apply (proj2 (transactions_DiGraph_nodes (build_relationships g))).
    eexists. split.
    + apply In_transaction_rows. exists r, a, b.
      split; [|split; [exact Ha|split; [exact Hb|reflexivity]]].
      cbn [build_relationships create_similar_relationships
             create_next_relationships relationships].
      apply in_or_app. left. apply in_or_app. now right.
    + cbn [er_source er_target].
      destruct Hends as [E|E]; rewrite E in *; [left|right]; congruence.
  - intros Hn Hrels.
    assert (Hrows : transaction_rows (build_relationships g) = []).
    { destruct (transaction_rows (build_relationships g)) as [|row rows] eqn:E;
        [reflexivity|].
      assert (Hin : In row (transaction_rows (build_relationships g)))
        by (rewrite E; now left).
      apply In_transaction_rows in Hin.
      destruct Hin as (r & _ & _ & Hr & _).
      cbn [build_relationships create_similar_relationships
             create_next_relationships relationships] in Hr.
      change (similar_created
                (mkGraph (nodes g) (relationships g ++ next_created g)))
        with (similar_created g) in Hr.
      assert (HN : next_created g = []).
      { apply length_zero_iff_nil.
        rewrite next_created_adjacent, length_map, length_adjacent.
        rewrite (Permutation_length (order_by_timestamp_perm _)).
        rewrite length_match_transactions. lia. }
      rewrite Hrels, HN in Hr. cbn [app] in Hr.
      destruct (In_similar_created_inv g r Hr) as (a & b & Ha & Hb & Hw & _).
      assert (rel_start r < List.length (nodes g))%nat
        by (apply nth_error_Some; congruence).
      assert (rel_end r < List.length (nodes g))%nat
        by (apply nth_error_Some; congruence).
      assert (Heq : rel_start r = rel_end r) by lia.
      rewrite Heq, Hb in Ha. inversion Ha; subst b.
      now rewrite similar_where_irrefl in Hw. }
    unfold visualize_transactions, transactions_DiGraph.
    rewrite Hrows. reflexivity.
Qed.

Lemma visualize_transactions_after_build_witness :
  In "2"%string
     (map fst (g_node (transactions_DiGraph
                         (build_relationships sample_nodes)))).
Proof.
  apply (proj1 (visualize_transactions_after_build origin_layout sample_nodes))
    with (t := mkTransaction "2" "Debit" 5000 7200 None None None None None).
  - vm_compute. repeat constructor.
  - vm_compute. right. right. left. reflexivity.
Defined.

Lemma length_trace_of ty coord pos rows :
  List.length (trace_of ty coord pos rows)
  = (3 * List.length
           (filter (fun row => String.eqb (er_rel_type row) ty) rows))%nat.
Proof.
  unfold trace_of. induction rows as [|row rows IH]; [reflexivity|].
  cbn [flat_map filter]. rewrite length_app, IH.
  destruct (String.eqb (er_rel_type row) ty); cbn [List.length]; lia.
Qed.

Lemma type_name_eqb (ty ty' : RelType) :
  String.eqb (type_name ty) (type_name ty') = RelType_eqb ty ty'.
Proof. destruct ty, ty'; reflexivity. Qed.

Lemma count_flat_map_app (A B : Type) (Q : B -> bool) (X Y : A -> list B)
      (l : list A) :
  List.length (filter Q (flat_map (fun x => X x ++ Y x) l))
  = (List.length (filter Q (flat_map X l))
     + List.length (filter Q (flat_map Y l)))%nat.
Proof.
  induction l as [|x l IH]; [reflexivity|].
  cbn [flat_map]. rewrite !filter_app, !length_app, IH. lia.
Qed.

Lemma flat_map_single (B : Type) (l : list (nat * Transaction)) (i : nat)
      (a : Transaction) (F : nat * Transaction -> list B) :
  NoDup (map fst l) ->
  In (i, a) l ->
  flat_map (fun it => if Nat.eqb i (fst it) then F it else []) l = F (i, a).
Proof.
  assert (Hnone : forall l' : list (nat * Transaction),
             ~ In i (map fst l') ->
             flat_map (fun it => if Nat.eqb i (fst it) then F it else []) l'
             = []).
  { induction l' as [|x l' IH]; intros Hn; [reflexivity|].
    cbn [flat_map].
    destruct (Nat.eqb_spec i (fst x)) as [E|E].
    - exfalso. apply Hn. left. now symmetry.
    - apply IH. intros H. apply Hn. now right. }
  induction l as [|x l IH]; intros Hnd Hin; [destruct Hin|].
  cbn [map] in Hnd. apply NoDup_cons_iff in Hnd. destruct Hnd as [Hx Hnd].
  cbn [flat_map]. destruct Hin as [->|Hin].
  - cbn [fst]. rewrite Nat.eqb_refl, Hnone by exact Hx.
    apply app_nil_r.
  - destruct (Nat.eqb_spec i (fst x)) as [E|E].
    + exfalso. apply Hx. rewrite <- E.
      change i with (fst (i, a)). now apply in_map.
    + now apply IH.
Qed.

Lemma count_transaction_rows (ns : list Transaction) (T : RelType) :
  forall rs,
    (forall r, In r rs ->
               (rel_start r < List.length ns)%nat
               /\ (rel_end r < List.length ns)%nat) ->
    List.length
      (filter (fun row => String.eqb (er_rel_type row) (type_name T))
              (transaction_rows (mkGraph ns rs)))
    = List.length (filter (fun r => RelType_eqb (rel_type r) T) rs).
Proof.
  induction rs as [|r rs IH]; intros Hrange.
  - unfold transaction_rows, outgoing. cbn [relationships flat_map].
    induction (match_transactions (mkGraph ns [])) as [|it l IHl];
      [reflexivity|exact IHl].
  - destruct (Hrange r (or_introl eq_refl)) as [Hs He].
    destruct (nth_error ns (rel_start r)) as [a|] eqn:Ea;
      [|apply nth_error_None in Ea; lia].
    destruct (nth_error ns (rel_end r)) as [b|] eqn:Eb;
      [|apply nth_error_None in Eb; lia].
    set (mk := fun (it : nat * Transaction) (rt : Relationship * Transaction) =>
                 let ty := type_name (rel_type (fst rt)) in
                 if existsb (String.eqb ty) ["NEXT"; "SIMILAR"]%string
                 then [mkEdgeRecord (Transaction_ID (snd it)) ty
                                    (Transaction_ID (snd rt))]
                 else []).
    assert (Hsplit :
              transaction_rows (mkGraph ns (r :: rs))
              = flat_map
                  (fun it =>
                     (if Nat.eqb (rel_start r) (fst it)
                      then mk it (r, b) else [])
                     ++ flat_map (mk it) (outgoing (mkGraph ns rs) (fst it)))
                  (match_transactions (mkGraph ns rs))).
    { unfold transaction_rows.
      change (match_transactions (mkGraph ns (r :: rs)))
        with (match_transactions (mkGraph ns rs)).
      apply flat_map_ext. intros it.
      unfold outgoing at 1. cbn [relationships nodes flat_map].
      fold (outgoing (mkGraph ns rs) (fst it)).
      rewrite flat_map_app. f_equal.
      destruct (Nat.eqb (rel_start r) (fst it)); [|reflexivity].
      rewrite Eb. cbn [flat_map]. apply app_nil_r. }
    rewrite Hsplit, count_flat_map_app.
    change (flat_map
              (fun it => flat_map (mk it) (outgoing (mkGraph ns rs) (fst it)))
              (match_transactions (mkGraph ns rs)))
      with (transaction_rows (mkGraph ns rs)).
    rewrite IH by (intros r' Hr'; apply Hrange; now right).
    rewrite (flat_map_single _ _ (rel_start r) a).
    + unfold mk. cbn [fst snd]. rewrite type_name_listed.
      cbn [filter er_rel_type]. rewrite type_name_eqb.
      destruct (RelType_eqb (rel_type r) T); reflexivity.
    + apply (NoDup_fst_match_transactions (mkGraph ns rs)).
    + apply (In_match_transactions (mkGraph ns rs)). exact Ea.
Qed.

(** Every relationship of a type is drawn: when the endpoints of all
    relationships exist, the NEXT trace holds three entries (two ends and a
    break) per NEXT relationship of the store and the SIMILAR trace three per
    SIMILAR relationship, duplicates included. *)
Theorem visualize_transactions_traces (pos : string -> float * float)
        (g : Graph) :
  (forall r, In r (relationships g) ->
             (rel_start r < List.length (nodes g))%nat
             /\ (rel_end r < List.length (nodes g))%nat) ->
  let fig := visualize_transactions pos g in
  let count ty :=
    List.length (filter (fun r => RelType_eqb (rel_type r) ty)
                        (relationships g)) in
  List.length (next_edge_x fig) = (3 * count NEXT)%nat
  /\ List.length (next_edge_y fig) = (3 * count NEXT)%nat
  /\ List.length (similar_edge_x fig) = (3 * count SIMILAR)%nat
  /\ List.length (similar_edge_y fig) = (3 * count SIMILAR)%nat.
Proof.
  intros Hrange. cbv zeta.
  cbn [visualize_transactions next_edge_x next_edge_y similar_edge_x
         similar_edge_y].
  rewrite !length_trace_of.
  destruct g as [ns rs]. cbn [nodes relationships] in *.
  pose proof (count_transaction_rows ns NEXT rs Hrange) as HN.
  pose proof (count_transaction_rows ns SIMILAR rs Hrange) as HS.
  cbn [type_name] in HN, HS. rewrite HN, HS. auto.
Qed.

Lemma visualize_transactions_traces_witness :
  List.length (next_edge_x (visualize_transactions origin_layout sample_graph))
  = (3 * 2)%nat
  /\ List.length
       (similar_edge_x (visualize_transactions origin_layout sample_graph))
     = (3 * 1)%nat.
Proof.
  destruct (visualize_transactions_traces origin_layout sample_graph)
    as (H1 & _ & H3 & _).
  - intros r Hr. vm_compute in Hr.
    destruct Hr as [<-|[<-|[<-|[]]]]; vm_compute; split; repeat constructor.
  - split; [exact H1|exact H3].
Defined.

Lemma visualize_transactions_markers_witness :
  visualize_transactions origin_layout sample_nodes
  = mkTransactionsFigure [] [] [] [] [] [] [].
Proof.
  apply (proj2 (proj2 (proj2 (proj2 (proj2
           (visualize_transactions_markers origin_layout sample_nodes)))))).
  reflexivity.
Defined.
